(** * ROBEKC top-up backend (server.js): order lifecycle and admin login

    A shallow embedding of the route handlers of [server.js]: the values a
    JSON request body can hold, JavaScript's [parseInt] and truthiness, the
    two SQLite tables, the session object and the five API routes.

    Outside the embedding: the middleware in front of the routes (helmet,
    body parsing, the rate limiter, static files) and the static pages.
    Libraries are modelled by what the handlers observe of them:
    - [uuidv4()], [CURRENT_TIMESTAMP], I/O failures of SQLite and the session
      id generator are inputs of each request ([env]);
    - bcrypt is an interface ([Bcrypt]);
    - the SQL statements are given their SQLite meaning on lists of rows. *)

From Stdlib Require Import ZArith String Ascii List Lia Bool.
From stdpp Require Import base option list sorting gmap strings.

Local Open Scope Z_scope.

(** ** JavaScript values of a request body *)

(** What [req.body.<field>] can be: [undefined] for an absent field, or a JSON
    scalar.  [JNum] holds integer-valued numbers; fractional numbers, arrays
    and objects are not modelled. *)
Inductive jsval : Type :=
  | JUndefined
  | JNull
  | JBool (b : bool)
  | JNum (z : Z)
  | JStr (s : string).

(** JavaScript numbers as [parseInt] produces them: [NaN], an integer-valued
    double, or an infinity. *)
Inductive number : Type :=
  | NaN
  | Finite (z : Z)
  | Infinite (negative : bool).

#[global] Instance jsval_eq_dec : EqDecision jsval.
Proof. solve_decision. Defined.

#[global] Instance number_eq_dec : EqDecision number.
Proof. solve_decision. Defined.

(** ToBoolean: [!v] is [negb (truthy v)]. *)
Definition truthy (v : jsval) : bool :=
  match v with
  | JUndefined | JNull => false
  | JBool b => b
  | JNum z => negb (z =? 0)
  | JStr EmptyString => false
  | JStr (String _ _) => true
  end.

(** A field the handlers report as missing: [!v] holds. *)
Definition missing (v : jsval) : Prop := truthy v = false.

(** *** Decimal numerals *)

Definition is_digit (c : ascii) : bool :=
  let n := Z.of_nat (nat_of_ascii c) in (48 <=? n) && (n <=? 57).

Definition digit_value (c : ascii) : Z := Z.of_nat (nat_of_ascii c) - 48.

Definition digit_char (d : Z) : ascii := ascii_of_nat (Z.to_nat (48 + d)).

(** The integer a string of decimal digits denotes, most significant first. *)
Fixpoint digits_value (acc : Z) (s : string) : Z :=
  match s with
  | EmptyString => acc
  | String c r => digits_value (acc * 10 + digit_value c) r
  end.

Fixpoint all_digits (s : string) : bool :=
  match s with
  | EmptyString => true
  | String c r => is_digit c && all_digits r
  end.

(** The longest prefix made of decimal digits. *)
Fixpoint leading_digits (s : string) : string :=
  match s with
  | EmptyString => EmptyString
  | String c r => if is_digit c then String c (leading_digits r) else EmptyString
  end.

Fixpoint dec_digits (fuel : nat) (n : Z) (acc : string) : string :=
  match fuel with
  | O => acc
  | S f =>
      let acc' := String (digit_char (n mod 10)) acc in
      if n <? 10 then acc' else dec_digits f (n / 10) acc'
  end.

(** Decimal numeral of a natural number. *)
Definition decimal (n : Z) : string :=
  dec_digits (S (Z.to_nat (Z.log2 n))) n EmptyString.

(** ToString, on the modelled values.  A number is printed as its decimal
    numeral, as Number::toString prints a safe integer (magnitude up to
    2^53 - 1); the digits it gives a larger number, and the exponent form it
    uses from 10^21 on, are not followed. *)
Definition ToString (v : jsval) : string :=
  match v with
  | JUndefined => "undefined"
  | JNull => "null"
  | JBool true => "true"
  | JBool false => "false"
  | JNum z => if z <? 0 then String "-" (decimal (- z)) else decimal z
  | JStr s => s
  end.

(** *** parseInt(string, 10) *)

(** White space and line terminators among the code units below 256. *)
Definition is_white_space (c : ascii) : bool :=
  let n := nat_of_ascii c in
  (Nat.eqb n 9 || Nat.eqb n 10 || Nat.eqb n 11 || Nat.eqb n 12 || Nat.eqb n 13
   || Nat.eqb n 32 || Nat.eqb n 160)%bool.

Fixpoint trim_start (s : string) : string :=
  match s with
  | EmptyString => EmptyString
  | String c r => if is_white_space c then trim_start r else s
  end.

(** Steps 2 to 9 of parseInt at radix 10: skip leading white space, read an
    optional sign, keep the leading digits; [None] when there is no digit,
    otherwise the signed mathematical integer. *)
Definition StringToMathInt (s : string) : option Z :=
  let trimmed := trim_start s in
  let '(sign, rest) :=
    match trimmed with
    | String "-" r => (-1, r)
    | String "+" r => (1, r)
    | _ => (1, trimmed)
    end in
  match leading_digits rest with
  | EmptyString => None
  | digits => Some (sign * digits_value 0 digits)
  end.

(** Round a positive integer to the nearest integer with a 53-bit significand,
    ties to even. *)
Definition round_to_double (m : Z) : Z :=
  let e := Z.log2 m - 52 in
  if e <=? 0 then m
  else
    let q := m / 2 ^ e in
    let r := m mod 2 ^ e in
    let half := 2 ^ (e - 1) in
    let q' := if (half <? r) || ((r =? half) && Z.odd q) then q + 1 else q in
    q' * 2 ^ e.

(** The Number value of a mathematical integer. *)
Definition to_number (z : Z) : number :=
  if z =? 0 then Finite 0
  else
    let v := round_to_double (Z.abs z) in
    if 2 ^ 1024 <=? v then Infinite (z <? 0) else Finite (Z.sgn z * v).

Definition parseInt (v : jsval) : number :=
  match StringToMathInt (ToString v) with
  | None => NaN
  | Some z => to_number z
  end.

Definition isNaN (n : number) : bool :=
  match n with NaN => true | _ => false end.

(** [n <= 0] on numbers. *)
Definition le_zero (n : number) : bool :=
  match n with
  | NaN => false
  | Finite z => z <=? 0
  | Infinite negative => negative
  end.

Definition MAX_SAFE_INTEGER : Z := 2 ^ 53 - 1.

(** [amount] read as an integer before [parseInt] rounds it to a Number. *)
Definition amount_value (v : jsval) : option Z := StringToMathInt (ToString v).

(** No digit follows: the string is empty or starts with another character. *)
Definition no_leading_digit (s : string) : bool :=
  match s with
  | EmptyString => true
  | String c _ => negb (is_digit c)
  end.

(** ** The SQLite tables *)

(** A row of [orders].  [id] is always bound from [uuidv4()], a string; the
    other TEXT columns are nullable.  [created_at] (the text
    YYYY-MM-DD HH:MM:SS of CURRENT_TIMESTAMP) is kept as the number of
    seconds it denotes; the order of the texts is the order of the numbers. *)
Record order_row : Type := {
  order_id : string;
  order_user : option string;
  order_game : option string;
  order_amount : number;
  order_status : string;
  order_created_at : Z
}.

(** A row of [admins]. *)
Record admin_row : Type := {
  admin_id : Z;
  admin_username : option string;
  admin_password_hash : option string
}.

#[global] Instance order_row_eq_dec : EqDecision order_row.
Proof. solve_decision. Defined.

#[global] Instance admin_row_eq_dec : EqDecision admin_row.
Proof. solve_decision. Defined.

(** [admins_seq] is the AUTOINCREMENT counter of [admins]. *)
Record database : Type := {
  orders : list order_row;
  admins : list admin_row;
  admins_seq : Z
}.

(** The text under which a bound JavaScript value is stored in, or compared
    with, a TEXT column: [None] is NULL; a boolean is bound as the integer 1
    or 0 and an integer is rendered in decimal by the column's affinity.
    That is the engine's text for a number in the int32 range; a number
    outside it is bound as a double and rendered otherwise. *)
Definition sql_text (v : jsval) : option string :=
  match v with
  | JUndefined | JNull => None
  | JBool b => Some (if b then "1" else "0")
  | JNum z => Some (ToString (JNum z))
  | JStr s => Some s
  end.

Definition order_ids (tbl : list order_row) : list string := order_id <$> tbl.

(** INSERT INTO orders(id,user,game,amount,status) VALUES(?,?,?,?,?):
    [None] is the error passed to the callback, on an I/O failure or when
    the PRIMARY KEY is already present. *)
Definition insert_order (io_err : bool) (r : order_row) (tbl : list order_row)
  : option (list order_row) :=
  if io_err then None
  else if bool_decide (order_id r ∈ order_ids tbl) then None
  else Some (tbl ++ [r]).

Definition set_status (st : string) (r : order_row) : order_row :=
  {| order_id := order_id r; order_user := order_user r;
     order_game := order_game r; order_amount := order_amount r;
     order_status := st; order_created_at := order_created_at r |}.

(** SET status = ? WHERE id = ?, on one row (a NULL key matches no row). *)
Definition update_row (st : string) (key : option string) (r : order_row) : order_row :=
  if bool_decide (Some (order_id r) = key) then set_status st r else r.

(** UPDATE orders SET status = ? WHERE id = ? *)
Definition update_status (io_err : bool) (st : string) (key : option string)
    (tbl : list order_row) : option (list order_row) :=
  if io_err then None else Some (update_row st key <$> tbl).

(** ORDER BY created_at DESC. *)
Definition newer_first (a b : order_row) : Prop :=
  order_created_at b ≤ order_created_at a.

#[global] Instance newer_first_dec a b : Decision (newer_first a b).
Proof. unfold newer_first. apply _. Defined.

#[global] Instance newer_first_trans : Transitive newer_first.
Proof. unfold newer_first. intros a b c ? ?. lia. Qed.

#[global] Instance newer_first_total : Total newer_first.
Proof. unfold newer_first. intros a b. lia. Qed.

(** SELECT * FROM orders ORDER BY created_at DESC LIMIT 200: the first 200
    rows of the table put in descending order of [created_at].  SQL leaves the
    order among rows of equal [created_at] open, so this is a relation. *)
Definition select_recent (tbl rows : list order_row) : Prop :=
  ∃ sorted, sorted ≡ₚ tbl ∧ Sorted newer_first sorted ∧ rows = take 200 sorted.

(** One result the statement can give, by a merge sort. *)
Definition select_recent_run (tbl : list order_row) : list order_row :=
  take 200 (merge_sort newer_first tbl).

(** SELECT * FROM admins WHERE username = ?  (db.get: the first row). *)
Definition get_admin (key : option string) (tbl : list admin_row) : option admin_row :=
  match key with
  | None => None
  | Some u => find (λ a, bool_decide (admin_username a = Some u)) tbl
  end.

(** INSERT INTO admins(username,password_hash) VALUES(?,?): fails on an I/O
    error or when the UNIQUE username is already present; the id is the next
    value of the AUTOINCREMENT counter. *)
Definition insert_admin (io_err : bool) (u p : option string) (d : database)
  : option database :=
  if io_err then None
  else if bool_decide (is_Some u ∧ u ∈ admin_username <$> admins d) then None
  else
    let id := admins_seq d + 1 in
    Some {| orders := orders d;
            admins := admins d ++ [{| admin_id := id; admin_username := u;
                                      admin_password_hash := p |}];
            admins_seq := id |}.

(** ** Requests, responses and the environment of a request *)

(** What a handler reads of [req]: [req.protocol], [req.get('host')],
    [req.body] and the session id of the request's cookie. *)
Record request : Type := {
  protocol : string;
  host : option string;
  body : gmap string jsval;
  cookie_sid : option string
}.

(** [const { k } = req.body]. *)
Definition field (req : request) (k : string) : jsval :=
  default JUndefined (body req !! k).

(** The JSON bodies the handlers send.  [JsonOrders] holds the rows the
    SELECT returned, which [res.json] prints (a finite amount as the
    number, a non-finite one as null). *)
Inductive json : Type :=
  | JsonError (error : string)
  | JsonOrder (orderId paymentUrl : string)
  | JsonOk
  | JsonOrders (rows : list order_row).

Record response : Type := { status : Z; payload : json }.

#[global] Instance json_eq_dec : EqDecision json.
Proof. solve_decision. Defined.

#[global] Instance response_eq_dec : EqDecision response.
Proof. solve_decision. Defined.

(** What the libraries hand to one request: the id [uuidv4()] returns, the
    value of CURRENT_TIMESTAMP, whether the SQLite call fails with an I/O
    error, and the id express-session gives a new session. *)
Record env : Type := {
  uuidv4 : string;
  CURRENT_TIMESTAMP : Z;
  db_err : bool;
  new_sid : string
}.

(** [req.session.admin], when set. *)
Record admin_session : Type := {
  session_admin_id : Z;
  session_username : option string
}.

#[global] Instance admin_session_eq_dec : EqDecision admin_session.
Proof. solve_decision. Defined.

(** bcrypt: [bcrypt_hash data rounds salt] is the hash [bcrypt.hash] passes to
    its callback when it drew [salt]; [bcrypt_compare data hash] is the [ok]
    that [bcrypt.compare] passes ([false] also when it passes an error). *)
Class Bcrypt : Type := {
  bcrypt_hash : string → Z → string → string;
  bcrypt_compare : jsval → option string → bool
}.

(** A template literal prints an absent header as "undefined". *)
Definition host_text (req : request) : string := default "undefined" (host req).

(** ** Route handlers *)

(** POST /api/topup *)
Definition post_api_topup (e : env) (req : request) (tbl : list order_row)
  : response * list order_row :=
  let user := field req "user" in
  let game := field req "game" in
  let amount := field req "amount" in
  if negb (truthy user) || negb (truthy game) || negb (truthy amount)
  then ({| status := 400; payload := JsonError "Missing fields" |}, tbl)
  else
    let numericAmount := parseInt amount in
    if isNaN numericAmount || le_zero numericAmount
    then ({| status := 400; payload := JsonError "Invalid amount" |}, tbl)
    else
      let id := uuidv4 e in
      match insert_order (db_err e)
              {| order_id := id; order_user := sql_text user;
                 order_game := sql_text game; order_amount := numericAmount;
                 order_status := "PENDING";
                 order_created_at := CURRENT_TIMESTAMP e |} tbl with
      | None => ({| status := 500; payload := JsonError "DB error" |}, tbl)
      | Some tbl' =>
          let mockPaymentUrl :=
            protocol req +:+ "://" +:+ host_text req +:+ "/success?order=" +:+ id in
          ({| status := 200; payload := JsonOrder id mockPaymentUrl |}, tbl')
      end.

(** POST /api/webhook/mock-pay *)
Definition post_api_webhook_mock_pay (e : env) (req : request) (tbl : list order_row)
  : response * list order_row :=
  let orderId := field req "orderId" in
  if negb (truthy orderId)
  then ({| status := 400; payload := JsonError "missing orderId" |}, tbl)
  else
    match update_status (db_err e) "PAID" (sql_text orderId) tbl with
    | None => ({| status := 500; payload := JsonError "DB" |}, tbl)
    | Some tbl' => ({| status := 200; payload := JsonOk |}, tbl')
    end.

(** GET /api/admin/orders: the responses the handler can send, for any result
    the SELECT can give. *)
Inductive get_api_admin_orders (e : env) (session : option admin_session)
    (tbl : list order_row) : response → Prop :=
  | orders_unauth :
      session = None →
      get_api_admin_orders e session tbl {| status := 401; payload := JsonError "unauth" |}
  | orders_db_error :
      is_Some session → db_err e = true →
      get_api_admin_orders e session tbl {| status := 500; payload := JsonError "DB" |}
  | orders_listed rows :
      is_Some session → db_err e = false → select_recent tbl rows →
      get_api_admin_orders e session tbl {| status := 200; payload := JsonOrders rows |}.

(** The same handler run with [select_recent_run] as the SELECT's result. *)
Definition get_api_admin_orders_run (e : env) (session : option admin_session)
    (tbl : list order_row) : response :=
  match session with
  | None => {| status := 401; payload := JsonError "unauth" |}
  | Some _ =>
      if db_err e then {| status := 500; payload := JsonError "DB" |}
      else {| status := 200; payload := JsonOrders (select_recent_run tbl) |}
  end.

Section Server.
Context `{!Bcrypt}.

(** POST /api/admin/login: the response and the new [req.session.admin]. *)
Definition post_api_admin_login (e : env) (req : request) (tbl : list admin_row)
    (session : option admin_session) : response * option admin_session :=
  let username := field req "username" in
  let password := field req "password" in
  if negb (truthy username) || negb (truthy password)
  then ({| status := 400; payload := JsonError "Missing" |}, session)
  else if db_err e
  then ({| status := 500; payload := JsonError "DB" |}, session)
  else
    match get_admin (sql_text username) tbl with
    | None => ({| status := 401; payload := JsonError "Unauthorized" |}, session)
    | Some row =>
        if bcrypt_compare password (admin_password_hash row)
        then ({| status := 200; payload := JsonOk |},
              Some {| session_admin_id := admin_id row;
                      session_username := admin_username row |})
        else ({| status := 401; payload := JsonError "Unauthorized" |}, session)
    end.

(** ** Start-up: the default admin *)

(** What start-up meets: whether SELECT COUNT( * ) fails, the salt
    [bcrypt.hash] draws, whether it passes an error, and whether the INSERT
    fails with an I/O error. *)
Record boot_env : Type := {
  boot_count_err : bool;
  boot_salt : string;
  boot_hash_err : bool;
  boot_insert_err : bool
}.

Definition defaultUser : string := "admin".
Definition defaultPass : string := "changeit".

(** The callback of CREATE TABLE IF NOT EXISTS admins. *)
Definition seed_admin (b : boot_env) (d : database) : database :=
  if boot_count_err b then d
  else if bool_decide (length (admins d) = 0%nat) then
    if boot_hash_err b then d
    else
      match insert_admin (boot_insert_err b) (Some defaultUser)
              (Some (bcrypt_hash defaultPass 10 (boot_salt b))) d with
      | Some d' => d'
      | None => d
      end
  else d.

(** ** The server *)

(** The database and the session store (express-session's MemoryStore: the
    sessions that hold an [admin], by session id). *)
Record server : Type := {
  db : database;
  sessions : gmap string admin_session
}.

Inductive route : Type :=
  | POST_api_topup
  | POST_api_admin_login
  | GET_api_admin_orders
  | POST_api_webhook_mock_pay
  | POST_api_admin_logout.

Record event : Type := { ev_env : env; ev_route : route; ev_req : request }.

(** [req.session.admin] as the session middleware loads it. *)
Definition req_session (s : server) (req : request) : option admin_session :=
  cookie_sid req ≫= λ sid, sessions s !! sid.

(** The id of the request's session: the cookie's when the store knows it,
    a new one otherwise. *)
Definition session_key (e : env) (req : request) (s : server) : string :=
  match cookie_sid req with
  | Some sid => if bool_decide (is_Some (sessions s !! sid)) then sid else new_sid e
  | None => new_sid e
  end.

Definition with_orders (tbl : list order_row) (s : server) : server :=
  {| db := {| orders := tbl; admins := admins (db s); admins_seq := admins_seq (db s) |};
     sessions := sessions s |}.

(** The session is stored at the end of the request when it holds an admin. *)
Definition save_session (e : env) (req : request) (a : option admin_session)
    (s : server) : server :=
  match a with
  | None => s
  | Some adm => {| db := db s; sessions := <[session_key e req s := adm]> (sessions s) |}
  end.

(** POST /api/admin/logout: [req.session.destroy]. *)
Definition post_api_admin_logout (req : request) (s : server) : response * server :=
  ({| status := 200; payload := JsonOk |},
   match cookie_sid req with
   | Some sid => {| db := db s; sessions := delete sid (sessions s) |}
   | None => s
   end).

(** One request, with [select_recent_run] as the result of the SELECT. *)
Definition handle (ev : event) (s : server) : response * server :=
  let e := ev_env ev in
  let req := ev_req ev in
  match ev_route ev with
  | POST_api_topup =>
      let '(res, tbl) := post_api_topup e req (orders (db s)) in
      (res, with_orders tbl s)
  | POST_api_admin_login =>
      let '(res, a) := post_api_admin_login e req (admins (db s)) (req_session s req) in
      (res, save_session e req a s)
  | GET_api_admin_orders =>
      (get_api_admin_orders_run e (req_session s req) (orders (db s)), s)
  | POST_api_webhook_mock_pay =>
      let '(res, tbl) := post_api_webhook_mock_pay e req (orders (db s)) in
      (res, with_orders tbl s)
  | POST_api_admin_logout => post_api_admin_logout req s
  end.

(** One request, for every result the SELECT can give. *)
Definition step (s : server) (ev : event) (res : response) (s' : server) : Prop :=
  match ev_route ev with
  | GET_api_admin_orders =>
      get_api_admin_orders (ev_env ev) (req_session s (ev_req ev)) (orders (db s)) res
      ∧ s' = s
  | _ => handle ev s = (res, s')
  end.

(** The state after a sequence of requests. *)
Definition run (evs : list event) (s : server) : server :=
  foldl (λ s ev, (handle ev s).2) s evs.

(** The database file on first run, and the server once start-up is over. *)
Definition empty_db : database := {| orders := []; admins := []; admins_seq := 0 |}.

Definition boot (b : boot_env) : server :=
  {| db := seed_admin b empty_db; sessions := ∅ |}.

(** The process started again on the database file it left: tables are
    created if absent, the seeding runs, the session store is empty. *)
Definition restart (b : boot_env) (s : server) : server :=
  {| db := seed_admin b (db s); sessions := ∅ |}.

Inductive reachable : server → Prop :=
  | reachable_boot b : reachable (boot b)
  | reachable_step s ev res s' : reachable s → step s ev res s' → reachable s'
  | reachable_restart b s : reachable s → reachable (restart b s).

End Server.

(** ** Notions the statements use *)

(** The row an accepted request inserts. *)
Definition new_order (e : env) (req : request) : order_row :=
  {| order_id := uuidv4 e;
     order_user := sql_text (field req "user");
     order_game := sql_text (field req "game");
     order_amount := parseInt (field req "amount");
     order_status := "PENDING";
     order_created_at := CURRENT_TIMESTAMP e |}.

(** The mock payment URL of a request and an id. *)
Definition success_url (req : request) (id : string) : string :=
  protocol req +:+ "://" +:+ host_text req +:+ "/success?order=" +:+ id.

(** Every status in the table is PENDING or PAID. *)
Definition status_ok (tbl : list order_row) : Prop :=
  ∀ r, r ∈ tbl → order_status r = "PENDING"%string ∨ order_status r = "PAID"%string.

(** What a request does to the orders table. *)
Definition orders_after (ev : event) (tbl : list order_row) : list order_row :=
  match ev_route ev with
  | POST_api_topup => (post_api_topup (ev_env ev) (ev_req ev) tbl).2
  | POST_api_webhook_mock_pay =>
      (post_api_webhook_mock_pay (ev_env ev) (ev_req ev) tbl).2
  | _ => tbl
  end.

(** The request is a mock-pay call for order [id] whose UPDATE runs. *)
Definition marks_paid (id : string) (ev : event) : bool :=
  match ev_route ev with
  | POST_api_webhook_mock_pay =>
      truthy (field (ev_req ev) "orderId")
      && bool_decide (sql_text (field (ev_req ev) "orderId") = Some id)
      && negb (db_err (ev_env ev))
  | _ => false
  end.

(** How many rows of the table are at least as recent as [r], itself
    included when it is in the table. *)
Definition at_least_as_recent (r : order_row) (tbl : list order_row) : nat :=
  length (filter (λ r', order_created_at r ≤ order_created_at r') tbl).

(** A stored amount above zero: a positive integer or +Infinity. *)
Definition amount_positive (n : number) : Prop :=
  match n with
  | NaN => False
  | Finite z => 0 < z
  | Infinite negative => negative = false
  end.

(** A TEXT value that is neither NULL nor the empty text. *)
Definition text_present (t : option string) : Prop :=
  ∃ s, t = Some s ∧ s ≠ EmptyString.

(** The row the seeding inserts into an admins table that never held a row. *)
Definition default_admin `{!Bcrypt} (salt : string) : admin_row :=
  {| admin_id := 1; admin_username := Some defaultUser;
     admin_password_hash := Some (bcrypt_hash defaultPass 10 salt) |}.

(** The session a login as [row] establishes. *)
Definition session_of (row : admin_row) : admin_session :=
  {| session_admin_id := admin_id row; session_username := admin_username row |}.

(** A row is kept by a request: as it was, or with its status set to PAID. *)
Definition kept_as (r r' : order_row) : Prop :=
  r' = r ∨ r' = set_status "PAID" r.

(** What a row must satisfy to have passed the validation of the handler. *)
Definition order_validated (r : order_row) : Prop :=
  text_present (order_user r) ∧ text_present (order_game r)
  ∧ amount_positive (order_amount r).

(** The admins table of a database the server made: empty and never used, or
    holding the default admin alone. *)
Definition admins_seeded `{!Bcrypt} (d : database) : Prop :=
  (admins d = [] ∧ admins_seq d = 0)
  ∨ ∃ salt, admins d = [default_admin salt] ∧ admins_seq d = 1.

(** Every stored session is that of a row of the admins table. *)
Definition sessions_authentic (s : server) : Prop :=
  ∀ sid a, sessions s !! sid = Some a → ∃ row, row ∈ admins (db s) ∧ a = session_of row.

Fixpoint all_white_space (s : string) : bool :=
  match s with
  | EmptyString => true
  | String c r => is_white_space c && all_white_space r
  end.

(** The values whose text in a TEXT column [sql_text] gives: every value but
    a number outside the int32 range, which node-sqlite3 binds as a double
    and SQLite renders with a fraction or an exponent. *)
Definition text_bindable (v : jsval) : Prop :=
  match v with
  | JNum z => - 2 ^ 31 ≤ z < 2 ^ 31
  | _ => True
  end.

(** ** Sample data *)

(** A request over plain HTTP to localhost:3000 with the given body fields
    and session cookie. *)
Definition sample_request (fields : list (string * jsval)) (sid : option string)
  : request :=
  {| protocol := "http"; host := Some "localhost:3000"%string;
     body := list_to_map fields; cookie_sid := sid |}.

(** An environment without I/O failure. *)
Definition sample_env (id : string) (now : Z) : env :=
  {| uuidv4 := id; CURRENT_TIMESTAMP := now; db_err := false; new_sid := "s1" |}.

Definition alice_order : request :=
  sample_request [("user", JStr "alice"); ("game", JStr "COIN-100");
                  ("amount", JNum 50000)]%string None.

(** A stand-in for bcrypt to run examples on: the hash is the salt, a dollar
    sign and the data; only the salt "s4lt" compares equal. *)
Definition toy_bcrypt : Bcrypt :=
  {| bcrypt_hash := λ data _ salt, salt +:+ "$" +:+ data;
     bcrypt_compare := λ data hash,
       match data, hash with
       | JStr d, Some h => bool_decide (h = "s4lt$" +:+ d)
       | _, _ => false
       end |}.

Definition sample_boot : boot_env :=
  {| boot_count_err := false; boot_salt := "s4lt"; boot_hash_err := false;
     boot_insert_err := false |}.

Definition sample_row (id : string) (created_at : Z) : order_row :=
  {| order_id := id; order_user := Some "alice"%string;
     order_game := Some "COIN-100"%string; order_amount := Finite 50000;
     order_status := "PENDING"; order_created_at := created_at |}.

Definition sample_session : admin_session :=
  {| session_admin_id := 1; session_username := Some "admin"%string |}.

Definition order_1 : string := "7d3c1c1e-5f0a-4d8e-9b1a-2f6c0e4a9b11".
Definition order_2 : string := "c0a8012e-91d4-4b7f-8a55-0d9e3b7f6a42".

Definition topup_alice : event :=
  {| ev_env := sample_env order_1 100; ev_route := POST_api_topup;
     ev_req := alice_order |}.

Definition pay_order_1 : event :=
  {| ev_env := sample_env order_2 200; ev_route := POST_api_webhook_mock_pay;
     ev_req := sample_request [("orderId", JStr order_1)]%string None |}.

Definition login_request (username password : jsval) : request :=
  sample_request [("username", username); ("password", password)]%string None.

(** * Properties *)

(** ** Numbers *)

Example parseInt_5_7 : parseInt (JStr "5.7") = Finite 5.
Proof. reflexivity. Qed.

Example parseInt_10abc : parseInt (JStr "10abc") = Finite 10.
Proof. reflexivity. Qed.

Example parseInt_50000 : parseInt (JNum 50000) = Finite 50000.
Proof. by vm_compute. Qed.

Example parseInt_signed : parseInt (JStr "  -12px") = Finite (-12).
Proof. reflexivity. Qed.

Example parseInt_abc : parseInt (JStr "abc") = NaN.
Proof. reflexivity. Qed.

Example parseInt_true : parseInt (JBool true) = NaN.
Proof. reflexivity. Qed.

Example host_absent :
  success_url {| protocol := "http"; host := None; body := ∅; cookie_sid := None |} "x"
  = "http://undefined/success?order=x"%string.
Proof. reflexivity. Qed.

Lemma round_to_double_small (m : Z) :
  0 < m → m < 2 ^ 53 → round_to_double m = m.
Proof.
  intros Hpos Hlt. unfold round_to_double.
  assert (Z.log2 m < 53) by (apply Z.log2_lt_pow2; lia).
  destruct (Z.leb_spec (Z.log2 m - 52) 0); [reflexivity | lia].
Qed.

Lemma round_to_double_pos (m : Z) : 0 < m → 0 < round_to_double m.
Proof.
  intros Hpos. unfold round_to_double.
  destruct (Z.leb_spec (Z.log2 m - 52) 0) as [|He]; [assumption|].
  set (e := Z.log2 m - 52) in *.
  assert (Hpow : 0 < 2 ^ e) by (apply Z.pow_pos_nonneg; lia).
  assert (Hq : 1 ≤ m / 2 ^ e).
  { apply Z.div_le_lower_bound; [assumption|].
    destruct (Z.log2_spec m Hpos) as [Hlo _].
    transitivity (2 ^ Z.log2 m); [|assumption].
    rewrite Z.mul_1_r. apply Z.pow_le_mono_r; lia. }
  destruct (_ || _); nia.
Qed.

Lemma to_number_exact (z : Z) :
  Z.abs z ≤ MAX_SAFE_INTEGER → to_number z = Finite z.
Proof.
  unfold MAX_SAFE_INTEGER, to_number. intros Hz.
  destruct (Z.eqb_spec z 0) as [->|Hne]; [reflexivity|].
  rewrite round_to_double_small by lia.
  assert (Z.abs z < 2 ^ 1024).
  { eapply Z.lt_le_trans with (2 ^ 53); [lia|]. apply Z.pow_le_mono_r; lia. }
  destruct (Z.leb_spec (2 ^ 1024) (Z.abs z)); [lia|].
  f_equal. lia.
Qed.

Lemma isNaN_to_number (z : Z) : isNaN (to_number z) = false.
Proof. unfold to_number. repeat case_match; reflexivity. Qed.

Lemma le_zero_to_number (z : Z) : le_zero (to_number z) = (z <=? 0).
Proof.
  unfold to_number.
  destruct (Z.eqb_spec z 0) as [->|Hne]; [reflexivity|].
  pose proof (round_to_double_pos (Z.abs z) ltac:(lia)) as Hr.
  destruct (Z.leb_spec (2 ^ 1024) (round_to_double (Z.abs z))); simpl.
  - destruct (Z.ltb_spec z 0), (Z.leb_spec z 0); (reflexivity || lia).
  - destruct (Z.leb_spec z 0), (Z.leb_spec (Z.sgn z * round_to_double (Z.abs z)) 0);
      (reflexivity || nia).
Qed.

(** ** Decimal numerals *)

Lemma digit_char_is_digit (d : Z) : 0 ≤ d < 10 → is_digit (digit_char d) = true.
Proof.
  intros Hd. unfold is_digit, digit_char.
  rewrite nat_ascii_embedding by lia.
  rewrite Z2Nat.id by lia.
  apply andb_true_intro; split; apply Z.leb_le; lia.
Qed.

Lemma digit_char_value (d : Z) : 0 ≤ d < 10 → digit_value (digit_char d) = d.
Proof.
  intros Hd. unfold digit_value, digit_char.
  rewrite nat_ascii_embedding by lia. lia.
Qed.

Lemma digit_value_range (c : ascii) : is_digit c = true → 0 ≤ digit_value c < 10.
Proof.
  unfold is_digit, digit_value. intros [H1 H2]%andb_prop.
  apply Z.leb_le in H1, H2. lia.
Qed.

Lemma digit_not_white_space (c : ascii) : is_digit c = true → is_white_space c = false.
Proof.
  unfold is_digit, is_white_space. intros [H1 H2]%andb_prop.
  apply Z.leb_le in H1, H2.
  repeat (apply orb_false_intro); apply Nat.eqb_neq; lia.
Qed.

Lemma digits_value_app (s1 s2 : string) (a : Z) :
  digits_value a (s1 +:+ s2) = digits_value (digits_value a s1) s2.
Proof. revert a. induction s1 as [|c s1 IH]; intros a; simpl; [reflexivity | apply IH]. Qed.

Lemma all_digits_app (s1 s2 : string) :
  all_digits (s1 +:+ s2) = all_digits s1 && all_digits s2.
Proof.
  induction s1 as [|c s1 IH]; simpl; [reflexivity|].
  rewrite IH. apply andb_assoc.
Qed.

Lemma string_app_nil (s : string) : s +:+ EmptyString = s.
Proof.
  induction s as [|c s IH]; [reflexivity|].
  change (String c (s +:+ EmptyString) = String c s). by rewrite IH.
Qed.

Lemma string_app_assoc (s1 s2 s3 : string) :
  (s1 +:+ s2) +:+ s3 = s1 +:+ (s2 +:+ s3).
Proof.
  induction s1 as [|c s1 IH]; [reflexivity|].
  change (String c ((s1 +:+ s2) +:+ s3) = String c (s1 +:+ s2 +:+ s3)).
  by rewrite IH.
Qed.

Lemma leading_digits_app (ds rest : string) :
  all_digits ds = true → no_leading_digit rest = true →
  leading_digits (ds +:+ rest) = ds.
Proof.
  intros Hds Hrest. induction ds as [|c ds IH]; simpl in *.
  - destruct rest as [|c r]; [reflexivity|]. simpl in *.
    by destruct (is_digit c).
  - apply andb_prop in Hds as [Hc Hds]. rewrite Hc. f_equal. by apply IH.
Qed.

Lemma dec_digits_spec (fuel : nat) (n : Z) (acc : string) :
  (0 < fuel)%nat → 0 ≤ n < 2 ^ Z.of_nat fuel →
  ∃ ds, dec_digits fuel n acc = ds +:+ acc ∧ all_digits ds = true
        ∧ ds ≠ EmptyString ∧ digits_value 0 ds = n.
Proof.
  revert n acc. induction fuel as [|f IH]; intros n acc Hfuel Hn.
  - lia.
  - cbn [dec_digits].
    assert (Hmod : 0 ≤ n mod 10 < 10) by (apply Z.mod_pos_bound; lia).
    destruct (Z.ltb_spec n 10) as [Hlt|Hge].
    + exists (String (digit_char (n mod 10)) EmptyString). simpl.
      rewrite digit_char_is_digit, digit_char_value by assumption.
      rewrite Z.mod_small by lia. done.
    + destruct (IH (n / 10) (String (digit_char (n mod 10)) acc))
        as (ds & Heq & Hall & Hne & Hval).
      { destruct f; [simpl in Hn|]; lia. }
      { split; [apply Z.div_pos; lia|].
        apply Z.div_lt_upper_bound; [lia|].
        rewrite Nat2Z.inj_succ, Z.pow_succ_r in Hn by lia. lia. }
      exists (ds +:+ String (digit_char (n mod 10)) EmptyString).
      rewrite Heq, string_app_assoc. split; [reflexivity|].
      rewrite all_digits_app, Hall, digits_value_app, Hval. simpl.
      rewrite digit_char_is_digit, digit_char_value by assumption.
      repeat split; [by destruct ds | ].
      pose proof (Z.div_mod n 10). lia.
Qed.

Lemma decimal_spec (n : Z) :
  0 ≤ n →
  all_digits (decimal n) = true ∧ decimal n ≠ EmptyString
  ∧ digits_value 0 (decimal n) = n.
Proof.
  intros Hn. unfold decimal.
  destruct (dec_digits_spec (S (Z.to_nat (Z.log2 n))) n EmptyString)
    as (ds & Heq & Hall & Hne & Hval).
  { lia. }
  { split; [assumption|].
    rewrite Nat2Z.inj_succ, Z2Nat.id by apply Z.log2_nonneg.
    destruct (Z.eq_dec n 0) as [->|]; [done|].
    apply Z.log2_spec. lia. }
  rewrite Heq, string_app_nil. done.
Qed.

Lemma sign_of_digit (c : ascii) (r : string) :
  is_digit c = true →
  match String c r with
  | String "-" r' => (-1, r')
  | String "+" r' => (1, r')
  | _ => (1, String c r)
  end = (1, String c r).
Proof.
  destruct c as [[] [] [] [] [] [] [] []]; intros Hc; (reflexivity || discriminate Hc).
Qed.

Lemma StringToMathInt_digits (ds rest : string) :
  all_digits ds = true → ds ≠ EmptyString → no_leading_digit rest = true →
  StringToMathInt (ds +:+ rest) = Some (digits_value 0 ds).
Proof.
  intros Hall Hne Hrest. unfold StringToMathInt.
  destruct ds as [|c ds]; [done|].
  pose proof Hall as Hall'. simpl in Hall. apply andb_prop in Hall as [Hc _].
  change (String c ds +:+ rest) with (String c (ds +:+ rest)).
  cbn [trim_start]. rewrite digit_not_white_space by assumption.
  rewrite sign_of_digit by assumption.
  change (String c (ds +:+ rest)) with (String c ds +:+ rest).
  rewrite leading_digits_app by assumption.
  f_equal. lia.
Qed.

Lemma StringToMathInt_decimal (n : Z) :
  0 ≤ n → StringToMathInt (decimal n) = Some n.
Proof.
  intros Hn. destruct (decimal_spec n Hn) as (Hall & Hne & Hval).
  rewrite <- (string_app_nil (decimal n)).
  rewrite StringToMathInt_digits by done. by rewrite Hval.
Qed.

Lemma StringToMathInt_minus (s : string) :
  StringToMathInt (String "-" s) =
  match leading_digits s with
  | EmptyString => None
  | digits => Some (-1 * digits_value 0 digits)
  end.
Proof. reflexivity. Qed.

Lemma amount_value_num (z : Z) : amount_value (JNum z) = Some z.
Proof.
  unfold amount_value, ToString.
  destruct (Z.ltb_spec z 0) as [Hneg|Hpos].
  - destruct (decimal_spec (- z)) as (Hall & Hne & Hval); [lia|].
    rewrite StringToMathInt_minus.
    rewrite <- (string_app_nil (decimal (- z))).
    rewrite leading_digits_app by done.
    destruct (decimal (- z)) eqn:Hd; [done|]. rewrite Hval. f_equal. lia.
  - by apply StringToMathInt_decimal.
Qed.

(** ** Order creation: validation *)

Lemma parseInt_amount_value (v : jsval) :
  parseInt v = match amount_value v with None => NaN | Some z => to_number z end.
Proof. reflexivity. Qed.

(** The guard on [numericAmount] passes exactly when the amount denotes an
    integer above zero. *)
Lemma amount_guard (v : jsval) :
  isNaN (parseInt v) || le_zero (parseInt v) = false
  ↔ ∃ z, amount_value v = Some z ∧ 0 < z.
Proof.
  rewrite parseInt_amount_value. destruct (amount_value v) as [z|]; simpl.
  - rewrite isNaN_to_number, le_zero_to_number. simpl.
    destruct (Z.leb_spec z 0); split.
    + discriminate.
    + intros (z' & [= <-] & ?). lia.
    + intros _. exists z. split; [reflexivity | lia].
    + reflexivity.
  - split; [discriminate | intros (z & [=] & _)].
Qed.

(** C1: a POST /api/topup whose user, game or amount is missing, or whose
    amount is not numeric, zero or negative, is answered with status 400 and
    leaves the orders table as it was. *)
Theorem create_order_rejects_invalid (e : env) (req : request) (tbl : list order_row) :
  missing (field req "user") ∨ missing (field req "game")
  ∨ missing (field req "amount")
  ∨ amount_value (field req "amount") = None
  ∨ (∃ z, amount_value (field req "amount") = Some z ∧ z ≤ 0) →
  ∃ reason,
    post_api_topup e req tbl = ({| status := 400; payload := JsonError reason |}, tbl).
Proof.
  intros Hbad. unfold post_api_topup, missing in *.
  destruct (truthy (field req "user")) eqn:Hu; [|by eexists].
  destruct (truthy (field req "game")) eqn:Hg; [|by eexists].
  destruct (truthy (field req "amount")) eqn:Ha; [|by eexists].
  simpl.
  destruct (isNaN (parseInt (field req "amount")) || le_zero (parseInt (field req "amount")))
    eqn:Hguard; [by eexists|].
  apply amount_guard in Hguard as (z & Hz & Hpos).
  destruct Hbad as [?|[?|[?|[Hnone|(z' & Hz' & Hle)]]]]; try discriminate.
  - congruence.
  - rewrite Hz in Hz'. injection Hz' as <-. lia.
Qed.

(** Every way of being invalid, on concrete requests. *)
Lemma create_order_rejects_invalid_witness :
  Forall (λ req, ∃ reason,
            post_api_topup (sample_env order_1 0) req [] =
            ({| status := 400; payload := JsonError reason |}, []))
    (sample_request [("game", JStr "COIN-100"); ("amount", JNum 5)]%string None
     :: sample_request [("user", JStr "alice"); ("amount", JNum 5)]%string None
     :: ((λ amount, sample_request [("user", JStr "alice"); ("game", JStr "COIN-100");
                                    ("amount", amount)]%string None)
         <$> [JUndefined; JStr ""; JNum 0; JStr "0"; JNum (-5); JStr "-5";
              JStr "abc"; JBool true; JNull])).
Proof.
  repeat (apply Forall_cons_2 || apply Forall_nil_2);
    apply create_order_rejects_invalid;
    first [ by left
          | by (right; left)
          | by (right; right; left)
          | by (right; right; right; left)
          | right; right; right; right; eexists; split; [vm_compute; reflexivity | lia] ].
Defined.

(** ** The mock payment webhook *)

Lemma update_row_id (st : string) (key : option string) (r : order_row) :
  order_id (update_row st key r) = order_id r.
Proof. unfold update_row. by destruct (bool_decide _). Qed.

Lemma update_row_idemp (st : string) (key : option string) (r : order_row) :
  update_row st key (update_row st key r) = update_row st key r.
Proof.
  unfold update_row at 2. destruct (bool_decide _) eqn:Hk; unfold update_row.
  - cbn [set_status order_id]. by rewrite Hk.
  - by rewrite Hk.
Qed.

Lemma update_row_no_match (st : string) (key : option string) (tbl : list order_row) :
  (∀ r, r ∈ tbl → Some (order_id r) ≠ key) → update_row st key <$> tbl = tbl.
Proof.
  induction tbl as [|r tbl IH]; intros Hno; [reflexivity|].
  rewrite fmap_cons, IH by (intros r' Hr'; apply Hno; by right).
  unfold update_row. rewrite bool_decide_eq_false_2; [reflexivity|].
  apply Hno. by left.
Qed.

Lemma mock_pay_updates (e : env) (req : request) (tbl : list order_row) :
  truthy (field req "orderId") = true → db_err e = false →
  post_api_webhook_mock_pay e req tbl =
  ({| status := 200; payload := JsonOk |},
   update_row "PAID" (sql_text (field req "orderId")) <$> tbl).
Proof.
  unfold post_api_webhook_mock_pay, update_status. by intros -> ->.
Qed.

(** C2: POST /api/webhook/mock-pay answers 400 'missing orderId' when orderId
    is missing and changes nothing.  Otherwise, the UPDATE not failing, it
    answers 200 {ok:true}; the table keeps its rows in their places with
    their id, user, game, amount and created_at, and each row keeps its
    status or has status PAID.  For an orderId that is a string, exactly the
    rows with that id have status PAID afterwards and every other row is as
    it was; when no row has that id the table is unchanged. *)
Theorem mark_paid_spec (e : env) (req : request) (tbl : list order_row) :
  let orderId := field req "orderId" in
  let out := post_api_webhook_mock_pay e req tbl in
  (missing orderId →
     out = ({| status := 400; payload := JsonError "missing orderId" |}, tbl))
  ∧ (truthy orderId = true → db_err e = false →
       out.1 = {| status := 200; payload := JsonOk |}
       ∧ length out.2 = length tbl
       ∧ (∀ i r, tbl !! i = Some r →
            ∃ r', out.2 !! i = Some r'
                  ∧ order_id r' = order_id r
                  ∧ order_user r' = order_user r
                  ∧ order_game r' = order_game r
                  ∧ order_amount r' = order_amount r
                  ∧ order_created_at r' = order_created_at r
                  ∧ (order_status r' = order_status r
                     ∨ order_status r' = "PAID"%string)
                  ∧ ∀ id, orderId = JStr id →
                      (order_id r = id → order_status r' = "PAID"%string)
                      ∧ (order_id r ≠ id → r' = r))
       ∧ (∀ id, orderId = JStr id → (∀ r, r ∈ tbl → order_id r ≠ id) → out.2 = tbl)
       ∧ (text_bindable orderId →
          (∀ r, r ∈ tbl → sql_text orderId ≠ Some (order_id r)) → out.2 = tbl)).
Proof.
  intros orderId out. split.
  - subst out. unfold post_api_webhook_mock_pay, missing. fold orderId. by intros ->.
  - intros Htruthy Herr. subst out. rewrite mock_pay_updates by assumption.
    fold orderId. cbn [fst snd].
    split; [reflexivity|]. split; [apply length_fmap|]. split; [|split].
    + intros i r Hi. exists (update_row "PAID" (sql_text orderId) r).
      split; [by rewrite list_lookup_fmap, Hi|].
      unfold update_row. destruct (decide (Some (order_id r) = sql_text orderId))
        as [Hmatch|Hother].
      * rewrite bool_decide_eq_true_2 by assumption. cbn.
        do 5 (split; [reflexivity|]). split; [by right|].
        intros id Hstr. split; [reflexivity|].
        intros Hne. rewrite Hstr in Hmatch. cbn in Hmatch. congruence.
      * rewrite bool_decide_eq_false_2 by assumption.
        do 5 (split; [reflexivity|]). split; [by left|].
        intros id Hstr. split; [|reflexivity].
        intros Hid. rewrite Hstr in Hother. cbn in Hother. congruence.
    + intros id Hstr Hno. apply update_row_no_match.
      intros r Hr. rewrite Hstr. cbn. intros [= Hid]. by apply (Hno r Hr).
    + intros _ Hno. apply update_row_no_match. intros r Hr Heq. by apply (Hno r Hr).
Qed.

(** An absent orderId; the id of one of two orders; an id that matches
    nothing. *)
Lemma mark_paid_spec_witness :
  let e := sample_env order_1 0 in
  let tbl := [sample_row order_1 10; sample_row order_2 20] in
  let pay id := sample_request [("orderId", JStr id)]%string None in
  post_api_webhook_mock_pay e (sample_request [] None) tbl =
    ({| status := 400; payload := JsonError "missing orderId" |}, tbl)
  ∧ (post_api_webhook_mock_pay e (pay order_2) tbl).1
    = {| status := 200; payload := JsonOk |}
  ∧ (∃ r', (post_api_webhook_mock_pay e (pay order_2) tbl).2 !! 1%nat = Some r'
           ∧ order_id r' = order_2 ∧ order_status r' = "PAID"%string)
  ∧ (post_api_webhook_mock_pay e (pay order_2) tbl).2 !! 0%nat
    = Some (sample_row order_1 10)
  ∧ (post_api_webhook_mock_pay e (pay "no-such-order"%string) tbl).2 = tbl.
Proof.
  intros e tbl pay.
  destruct (mark_paid_spec e (sample_request [] None) tbl) as [Hmissing _].
  destruct (mark_paid_spec e (pay order_2) tbl) as [_ Hpay].
  destruct (Hpay eq_refl eq_refl) as (Hok & _ & Hrows & _).
  destruct (mark_paid_spec e (pay "no-such-order"%string) tbl) as [_ Hnone].
  destruct (Hnone eq_refl eq_refl) as (_ & _ & _ & Hno & _).
  split; [by apply Hmissing|]. split; [exact Hok|]. split; [|split].
  - destruct (Hrows 1%nat (sample_row order_2 20) eq_refl)
      as (r' & Hlook & Hid & _ & _ & _ & _ & _ & Hstr).
    exists r'. split; [exact Hlook|]. split; [exact Hid|].
    by apply (proj1 (Hstr order_2 eq_refl)).
  - destruct (Hrows 0%nat (sample_row order_1 10) eq_refl)
      as (r' & Hlook & _ & _ & _ & _ & _ & _ & Hstr).
    rewrite Hlook. f_equal. by apply (proj2 (Hstr order_2 eq_refl)).
  - apply (Hno "no-such-order"%string eq_refl).
    intros r Hr. repeat (apply elem_of_cons in Hr as [->|Hr]); [done | done |].
    by apply elem_of_nil in Hr.
Defined.

(** C7: for an order that is in the table with status PENDING, one mock-pay
    call with its id leaves it PAID, and a second call changes nothing: the
    table after it is the table before it. *)
Theorem mark_paid_idempotent (e1 e2 : env) (req : request) (tbl : list order_row)
    (r : order_row) :
  field req "orderId" = JStr (order_id r) → order_id r ≠ EmptyString →
  db_err e1 = false → db_err e2 = false →
  r ∈ tbl → order_status r = "PENDING"%string →
  let once := post_api_webhook_mock_pay e1 req tbl in
  let twice := post_api_webhook_mock_pay e2 req once.2 in
  once.1 = {| status := 200; payload := JsonOk |}
  ∧ set_status "PAID" r ∈ once.2
  ∧ (∀ r', r' ∈ once.2 → order_id r' = order_id r → order_status r' = "PAID"%string)
  ∧ twice.1 = {| status := 200; payload := JsonOk |}
  ∧ twice.2 = once.2.
Proof.
  intros Hfield Hid He1 He2 Hin Hpending once twice.
  assert (truthy (field req "orderId") = true) as Htruthy.
  { rewrite Hfield. simpl. by destruct (order_id r). }
  subst once twice. rewrite !mock_pay_updates by assumption. cbn [fst snd].
  rewrite Hfield. cbn [sql_text].
  split; [reflexivity|]. split; [|split; [|split; [reflexivity|]]].
  - apply list_elem_of_fmap. exists r. split; [|assumption].
    unfold update_row. by rewrite bool_decide_eq_true_2.
  - intros r' (r0 & -> & Hr0)%list_elem_of_fmap Hsame.
    rewrite update_row_id in Hsame. unfold update_row.
    rewrite bool_decide_eq_true_2 by congruence. reflexivity.
  - rewrite <- list_fmap_compose. apply list_fmap_ext.
    intros i r0 _. apply update_row_idemp.
Qed.

Lemma mark_paid_idempotent_witness :
  let e := sample_env order_2 7 in
  let req := sample_request [("orderId", JStr order_1)]%string None in
  let r := {| order_id := order_1; order_user := Some "alice"%string;
              order_game := Some "COIN-100"%string; order_amount := Finite 50000;
              order_status := "PENDING"; order_created_at := 0 |} in
  (post_api_webhook_mock_pay e req [r]).2 = [set_status "PAID" r]
  ∧ (post_api_webhook_mock_pay e req (post_api_webhook_mock_pay e req [r]).2).2
    = (post_api_webhook_mock_pay e req [r]).2.
Proof.
  intros e req r.
  destruct (mark_paid_idempotent e e req [r] r) as (_ & _ & _ & _ & Hsame);
    [reflexivity | discriminate | reflexivity | reflexivity
    | by apply list_elem_of_singleton | reflexivity |].
  split; [reflexivity | exact Hsame].
Defined.

(** ** Order creation: the accepted requests *)

Lemma amount_value_truthy (v : jsval) (n : Z) :
  amount_value v = Some n → 0 < n → truthy v = true.
Proof.
  destruct v as [| |[]|z|[|c s]]; try discriminate.
  - rewrite amount_value_num. intros [= ->] Hn. simpl.
    apply negb_true_iff, Z.eqb_neq. lia.
  - reflexivity.
Qed.

Lemma topup_accepted (e : env) (req : request) (tbl : list order_row) (n : Z) :
  truthy (field req "user") = true → truthy (field req "game") = true →
  amount_value (field req "amount") = Some n → 0 < n →
  db_err e = false → uuidv4 e ∉ order_ids tbl →
  post_api_topup e req tbl =
  ({| status := 200;
      payload := JsonOrder (uuidv4 e) (success_url req (uuidv4 e)) |},
   tbl ++ [new_order e req])
  ∧ order_amount (new_order e req) = to_number n.
Proof.
  intros Hu Hg Ha Hn Herr Hfresh. split.
  - unfold post_api_topup. rewrite Hu, Hg, (amount_value_truthy _ _ Ha Hn). simpl.
    assert (isNaN (parseInt (field req "amount")) || le_zero (parseInt (field req "amount"))
            = false) as -> by (apply amount_guard; eauto).
    unfold insert_order. rewrite Herr. cbn [order_id].
    by rewrite bool_decide_eq_false_2.
  - cbn [new_order order_amount]. by rewrite parseInt_amount_value, Ha.
Qed.

Lemma order_ids_snoc (tbl : list order_row) (r : order_row) :
  order_ids (tbl ++ [r]) = order_ids tbl ++ [order_id r].
Proof. unfold order_ids. by rewrite fmap_app. Qed.

Lemma NoDup_order_ids_snoc (tbl : list order_row) (r : order_row) :
  order_id r ∉ order_ids tbl → NoDup (order_ids tbl) → NoDup (order_ids (tbl ++ [r])).
Proof.
  intros Hfresh Hnd. rewrite order_ids_snoc. apply NoDup_app.
  split; [assumption|]. split; [|apply NoDup_singleton].
  intros x Hx ->%list_elem_of_singleton. contradiction.
Qed.

Lemma not_in_order_ids (tbl : list order_row) (id : string) :
  id ∉ order_ids tbl ↔ ∀ r, r ∈ tbl → order_id r ≠ id.
Proof.
  unfold order_ids. split.
  - intros Hfresh r Hr Hid. apply Hfresh. apply list_elem_of_fmap. by exists r.
  - intros Hall (r & -> & Hr)%list_elem_of_fmap. by apply (Hall r Hr).
Qed.

Lemma topup_insert_refused (e : env) (req : request) (tbl : list order_row) (n : Z) :
  truthy (field req "user") = true → truthy (field req "game") = true →
  amount_value (field req "amount") = Some n → 0 < n →
  uuidv4 e ∈ order_ids tbl →
  post_api_topup e req tbl = ({| status := 500; payload := JsonError "DB error" |}, tbl).
Proof.
  intros Hu Hg Ha Hn Hin. unfold post_api_topup.
  rewrite Hu, Hg, (amount_value_truthy _ _ Ha Hn). simpl.
  assert (isNaN (parseInt (field req "amount")) || le_zero (parseInt (field req "amount"))
          = false) as -> by (apply amount_guard; eauto).
  unfold insert_order. destruct (db_err e); [reflexivity|]. cbn [order_id].
  by rewrite bool_decide_eq_true_2.
Qed.

Lemma topup_200_fresh (e : env) (req : request) (tbl : list order_row)
    (id url : string) (tbl' : list order_row) :
  post_api_topup e req tbl = ({| status := 200; payload := JsonOrder id url |}, tbl') →
  id = uuidv4 e ∧ uuidv4 e ∉ order_ids tbl.
Proof.
  unfold post_api_topup.
  destruct ((_ || _) || _); [discriminate|]. destruct (_ || _); [discriminate|].
  unfold insert_order. destruct (db_err e); [discriminate|]. cbn [order_id].
  destruct (decide (uuidv4 e ∈ order_ids tbl)) as [Hin|Hfresh].
  - rewrite bool_decide_eq_true_2 by assumption. discriminate.
  - rewrite bool_decide_eq_false_2 by assumption. by intros [= <- _ _].
Qed.

(** C4, amended: a POST /api/topup with user and game present and an amount
    that is a positive integer, the INSERT meeting no I/O error.  When no
    order in the table has the id [uuidv4()] returned, one order is appended
    with that id, status PENDING, the submitted user and game and the amount
    (itself, up to 2^53 - 1), and the answer is 200 with the id and the URL
    <protocol>://<host>/success?order=<id>.  When an order has that id
    already, the answer is 500 and no order is created.  So the id of a 200
    answer is never the id of an order that was in the table. *)
Theorem create_order_succeeds (e : env) (req : request) (tbl : list order_row) (n : Z) :
  truthy (field req "user") = true → truthy (field req "game") = true →
  amount_value (field req "amount") = Some n → 0 < n →
  db_err e = false →
  ((∀ r, r ∈ tbl → order_id r ≠ uuidv4 e) →
     ∃ row,
       post_api_topup e req tbl =
         ({| status := 200;
             payload := JsonOrder (uuidv4 e)
                          (protocol req +:+ "://" +:+ host_text req
                           +:+ "/success?order=" +:+ uuidv4 e) |},
          tbl ++ [row])
       ∧ order_id row = uuidv4 e
       ∧ order_status row = "PENDING"%string
       ∧ order_created_at row = CURRENT_TIMESTAMP e
       ∧ (∀ u, field req "user" = JStr u → order_user row = Some u)
       ∧ (∀ g, field req "game" = JStr g → order_game row = Some g)
       ∧ (text_bindable (field req "user") →
          order_user row = sql_text (field req "user"))
       ∧ (text_bindable (field req "game") →
          order_game row = sql_text (field req "game"))
       ∧ (n ≤ MAX_SAFE_INTEGER → order_amount row = Finite n))
  ∧ ((∃ r, r ∈ tbl ∧ order_id r = uuidv4 e) →
       post_api_topup e req tbl =
       ({| status := 500; payload := JsonError "DB error" |}, tbl))
  ∧ (∀ id url tbl',
       post_api_topup e req tbl =
         ({| status := 200; payload := JsonOrder id url |}, tbl') →
       ∀ r, r ∈ tbl → order_id r ≠ id).
Proof.
  intros Hu Hg Ha Hn Herr. split; [|split].
  - intros Hfresh%not_in_order_ids.
    destruct (topup_accepted e req tbl n) as [Hrun Hamount]; try assumption.
    exists (new_order e req). rewrite Hrun. unfold success_url.
    do 4 (split; [reflexivity|]). cbn [new_order order_user order_game].
    split; [by intros u ->|]. split; [by intros g ->|].
    split; [reflexivity|]. split; [reflexivity|].
    intros Hsafe. rewrite Hamount. apply to_number_exact. lia.
  - intros (r & Hr & Hid). apply (topup_insert_refused e req tbl n); try assumption.
    unfold order_ids. apply list_elem_of_fmap. by exists r.
  - intros id url tbl' Hrun. apply topup_200_fresh in Hrun as [-> Hfresh].
    by apply not_in_order_ids.
Qed.

(** CreateOrder("alice", "COIN-100", 50000) on a table that holds another
    order. *)
Lemma create_order_succeeds_witness :
  let e := sample_env order_2 1700000000 in
  let tbl := [sample_row order_1 100] in
  ∃ row,
    post_api_topup e alice_order tbl =
      ({| status := 200;
          payload := JsonOrder order_2
            "http://localhost:3000/success?order=c0a8012e-91d4-4b7f-8a55-0d9e3b7f6a42" |},
       tbl ++ [row])
    ∧ order_id row = order_2
    ∧ order_status row = "PENDING"%string
    ∧ order_created_at row = 1700000000
    ∧ order_user row = Some "alice"%string
    ∧ order_game row = Some "COIN-100"%string
    ∧ order_amount row = Finite 50000.
Proof.
  intros e tbl.
  destruct (create_order_succeeds e alice_order tbl 50000) as [Hfresh _];
    [reflexivity | reflexivity | by vm_compute | lia | reflexivity |].
  destruct Hfresh as (row & Hrun & Hid & Hst & Hat & Huser & Hgame & _ & _ & Hamount).
  { intros r ->%list_elem_of_singleton. discriminate. }
  exists row. split; [exact Hrun|].
  split; [exact Hid|]. split; [exact Hst|]. split; [exact Hat|].
  split; [by apply Huser|]. split; [by apply Hgame|].
  apply Hamount. by vm_compute.
Defined.

(** C4 as stated fails: a valid request for which [uuidv4()] returns the id of
    an order that is in the table is answered 500, and no order is created:
    the table is as it was. *)
Lemma create_order_id_collision :
  let e := sample_env order_1 1700000000 in
  let tbl := [sample_row order_1 100] in
  truthy (field alice_order "user") = true
  ∧ truthy (field alice_order "game") = true
  ∧ parseInt (field alice_order "amount") = Finite 50000
  ∧ post_api_topup e alice_order tbl =
    ({| status := 500; payload := JsonError "DB error" |}, tbl).
Proof. intros e tbl. repeat split; by vm_compute. Qed.

(** ** Order creation: what [parseInt] accepts *)

Lemma amount_value_leading (ds rest : string) :
  all_digits ds = true → ds ≠ EmptyString → no_leading_digit rest = true →
  amount_value (JStr (ds +:+ rest)) = Some (digits_value 0 ds).
Proof. intros. unfold amount_value, ToString. by apply StringToMathInt_digits. Qed.

(** C10, amended: an amount string that starts with a decimal numeral above
    zero, whatever follows it, is accepted, and the persisted amount is that
    numeral as a JavaScript number: the numeral itself up to 2^53 - 1, its
    nearest double above. *)
Theorem create_order_leading_integer (e : env) (req : request) (tbl : list order_row)
    (ds rest : string) :
  truthy (field req "user") = true → truthy (field req "game") = true →
  field req "amount" = JStr (ds +:+ rest) →
  all_digits ds = true → ds ≠ EmptyString → no_leading_digit rest = true →
  0 < digits_value 0 ds →
  db_err e = false → uuidv4 e ∉ order_ids tbl →
  ∃ row url,
    post_api_topup e req tbl =
      ({| status := 200; payload := JsonOrder (uuidv4 e) url |}, tbl ++ [row])
    ∧ order_amount row = to_number (digits_value 0 ds)
    ∧ (digits_value 0 ds ≤ MAX_SAFE_INTEGER →
       order_amount row = Finite (digits_value 0 ds)).
Proof.
  intros Hu Hg Hfield Hall Hne Hrest Hpos Herr Hfresh.
  destruct (topup_accepted e req tbl (digits_value 0 ds)) as [Hrun Hamount];
    try assumption.
  { rewrite Hfield. by apply amount_value_leading. }
  eexists _, _. split; [exact Hrun|]. split; [exact Hamount|].
  intros Hsafe. rewrite Hamount. apply to_number_exact. lia.
Qed.

(** The amounts "5.7" and "10abc" are stored as 5 and 10. *)
Lemma create_order_leading_integer_witness :
  Forall (λ '(ds, rest, n),
      ∃ row url,
        post_api_topup (sample_env order_1 0)
          (sample_request [("user", JStr "alice"); ("game", JStr "COIN-100");
                           ("amount", JStr (ds +:+ rest))]%string None) [] =
          ({| status := 200; payload := JsonOrder order_1 url |}, [] ++ [row])
        ∧ order_amount row = Finite n)
    [("5", ".7", 5); ("10", "abc", 10)]%string.
Proof.
  repeat (apply Forall_cons_2 || apply Forall_nil_2).
  - destruct (create_order_leading_integer (sample_env order_1 0)
                (sample_request [("user", JStr "alice"); ("game", JStr "COIN-100");
                                 ("amount", JStr "5.7")]%string None) [] "5" ".7")
      as (row & url & Hrun & _ & Hexact);
      [reflexivity | reflexivity | reflexivity | reflexivity | discriminate
      | reflexivity | reflexivity | reflexivity | apply not_elem_of_nil |].
    exists row, url. split; [exact Hrun | by apply Hexact].
  - destruct (create_order_leading_integer (sample_env order_1 0)
                (sample_request [("user", JStr "alice"); ("game", JStr "COIN-100");
                                 ("amount", JStr "10abc")]%string None) [] "10" "abc")
      as (row & url & Hrun & _ & Hexact);
      [reflexivity | reflexivity | reflexivity | reflexivity | discriminate
      | reflexivity | reflexivity | reflexivity | apply not_elem_of_nil |].
    exists row, url. split; [exact Hrun | by apply Hexact].
Defined.

(** C10 as stated fails: the amount "9007199254740993" is accepted, its
    leading integer is 9007199254740993, and the amount stored is
    9007199254740992. *)
Lemma create_order_leading_integer_rounded :
  let req := sample_request [("user", JStr "alice"); ("game", JStr "COIN-100");
                             ("amount", JStr "9007199254740993")]%string None in
  amount_value (field req "amount") = Some 9007199254740993
  ∧ ∃ row url,
      post_api_topup (sample_env order_1 0) req [] =
        ({| status := 200; payload := JsonOrder order_1 url |}, [row])
      ∧ order_amount row = Finite 9007199254740992
      ∧ order_amount row ≠ Finite 9007199254740993.
Proof.
  intros req. split; [by vm_compute|].
  eexists _, _. split; [by vm_compute|]. split; [reflexivity | discriminate].
Qed.

(** ** Listing orders *)

Lemma select_recent_run_sound (tbl : list order_row) :
  select_recent tbl (select_recent_run tbl).
Proof.
  exists (merge_sort newer_first tbl). split; [apply merge_sort_Permutation|].
  split; [apply (Sorted_merge_sort newer_first) | reflexivity].
Qed.

(** What the SELECT returns: a descending prefix of length min(200, size)
    whose rows are at least as recent as every row left out. *)
Lemma select_recent_spec (tbl rows : list order_row) :
  select_recent tbl rows →
  ∃ rest,
    tbl ≡ₚ rows ++ rest
    ∧ length rows = Nat.min 200 (length tbl)
    ∧ Sorted newer_first rows
    ∧ ∀ r r', r ∈ rows → r' ∈ rest → order_created_at r' ≤ order_created_at r.
Proof.
  intros (sorted & Hperm & Hsorted & ->).
  exists (drop 200 sorted). rewrite take_drop.
  apply (Sorted_StronglySorted newer_first) in Hsorted.
  rewrite <- (take_drop 200 sorted) in Hsorted.
  apply StronglySorted_app in Hsorted as (Hcross & Htake & _).
  split; [by symmetry|]. split; [by rewrite length_take, Hperm|].
  split; [by apply StronglySorted_Sorted|].
  intros r r' Hr Hr'. apply (Hcross r r' Hr Hr').
Qed.

Lemma filter_all {A} (P : A → Prop) `{∀ x, Decision (P x)} (l : list A) :
  (∀ x, x ∈ l → P x) → filter P l = l.
Proof.
  induction l as [|x l IH]; intros Hall; [reflexivity|].
  rewrite filter_cons_True by (apply Hall; by left).
  f_equal. apply IH. intros y Hy. apply Hall. by right.
Qed.

(** A row with at most 200 rows at least as recent as itself is in every
    result of the SELECT. *)
Lemma select_recent_window (tbl rows : list order_row) (r : order_row) :
  select_recent tbl rows → r ∈ tbl → (at_least_as_recent r tbl ≤ 200)%nat →
  r ∈ rows.
Proof.
  intros Hsel Hin Hwin.
  destruct (select_recent_spec tbl rows Hsel) as (rest & Hperm & Hlen & _ & Hcross).
  rewrite Hperm in Hin. apply elem_of_app in Hin as [Hin|Hin]; [assumption|].
  exfalso. unfold at_least_as_recent in Hwin.
  rewrite Hperm, filter_app, length_app in Hwin.
  rewrite (filter_all _ rows) in Hwin by (intros x Hx; by apply Hcross).
  assert (r ∈ filter (λ r', order_created_at r ≤ order_created_at r') rest) as Hr.
  { apply list_elem_of_filter. split; [lia | assumption]. }
  assert (length tbl = (length rows + length rest)%nat) as Htbl
      by (by rewrite Hperm, length_app).
  destruct rest as [|x rest]; [by apply elem_of_nil in Hin|].
  destruct (filter _ (x :: rest)) as [|y ys]; [by apply elem_of_nil in Hr|].
  cbn [length] in Hwin, Htbl. lia.
Qed.

Lemma get_api_admin_orders_run_sound (e : env) (session : option admin_session)
    (tbl : list order_row) :
  get_api_admin_orders e session tbl (get_api_admin_orders_run e session tbl).
Proof.
  unfold get_api_admin_orders_run. destruct session as [a|].
  - destruct (db_err e) eqn:Herr.
    + by apply orders_db_error.
    + apply orders_listed; [done | done | apply select_recent_run_sound].
  - by apply orders_unauth.
Qed.

Lemma orders_authenticated_inv (e : env) (a : admin_session)
    (tbl : list order_row) (res : response) :
  get_api_admin_orders e (Some a) tbl res → db_err e = false →
  ∃ rows, res = {| status := 200; payload := JsonOrders rows |} ∧ select_recent tbl rows.
Proof.
  intros Hres Herr. inversion Hres; subst; [discriminate | congruence | eauto].
Qed.

(** C5: GET /api/admin/orders always has an answer; without an admin in the
    session the answer is 401 with an error body; with one, the SELECT not
    failing, it is 200 with min(200, size of the table) rows of the table, in
    descending order of created_at, each at least as recent as every row
    left out. *)
Theorem list_orders_spec (e : env) (session : option admin_session)
    (tbl : list order_row) :
  get_api_admin_orders e session tbl (get_api_admin_orders_run e session tbl)
  ∧ ∀ res, get_api_admin_orders e session tbl res →
      (session = None → res = {| status := 401; payload := JsonError "unauth" |})
      ∧ (is_Some session → db_err e = false →
           ∃ rows rest,
             res = {| status := 200; payload := JsonOrders rows |}
             ∧ (length rows ≤ 200)%nat
             ∧ length rows = Nat.min 200 (length tbl)
             ∧ tbl ≡ₚ rows ++ rest
             ∧ Sorted newer_first rows
             ∧ ∀ r r', r ∈ rows → r' ∈ rest →
                 order_created_at r' ≤ order_created_at r).
Proof.
  split; [apply get_api_admin_orders_run_sound|].
  intros res Hres. split.
  - intros ->. inversion Hres as [| [a Ha] _ | rows [a Ha] _ _]; done.
  - intros Hsome Herr.
    inversion Hres as [Hnone | _ Herr' | rows _ _ Hsel]; subst.
    + by destruct Hsome.
    + congruence.
    + destruct (select_recent_spec tbl rows Hsel) as (rest & Hperm & Hlen & Hsorted & Hcross).
      exists rows, rest. repeat split; try done. lia.
Qed.

(** Three orders created at seconds 10, 30 and 20: refused without a
    session, listed newest first with one. *)
Lemma list_orders_spec_witness :
  let e := sample_env order_1 40 in
  let tbl := [sample_row order_1 10; sample_row order_2 30; sample_row "o3" 20] in
  get_api_admin_orders_run e None tbl
    = {| status := 401; payload := JsonError "unauth" |}
  ∧ ∃ rows rest,
      get_api_admin_orders_run e (Some sample_session) tbl
        = {| status := 200; payload := JsonOrders rows |}
      ∧ (length rows ≤ 200)%nat
      ∧ length rows = Nat.min 200 (length tbl)
      ∧ tbl ≡ₚ rows ++ rest
      ∧ Sorted newer_first rows
      ∧ ∀ r r', r ∈ rows → r' ∈ rest → order_created_at r' ≤ order_created_at r.
Proof.
  intros e tbl. split.
  - destruct (list_orders_spec e None tbl) as [Hrun Hall].
    by apply (proj1 (Hall _ Hrun)).
  - destruct (list_orders_spec e (Some sample_session) tbl) as [Hrun Hall].
    by apply (proj2 (Hall _ Hrun)).
Defined.

(** ** The orders table along a run of the server *)

Lemma set_status_same (r : order_row) : set_status (order_status r) r = r.
Proof. by destruct r. Qed.

Lemma topup_effect (e : env) (req : request) (tbl : list order_row) :
  (post_api_topup e req tbl).2 = tbl
  ∨ ((uuidv4 e ∉ order_ids tbl)
     ∧ (post_api_topup e req tbl).2 = tbl ++ [new_order e req]).
Proof.
  unfold post_api_topup.
  destruct ((_ || _) || _); [by left|]. destruct (_ || _); [by left|].
  unfold insert_order. destruct (db_err e); [by left|]. cbn [order_id].
  destruct (decide (uuidv4 e ∈ order_ids tbl)) as [Hin|Hfresh].
  - rewrite bool_decide_eq_true_2 by assumption. by left.
  - rewrite bool_decide_eq_false_2 by assumption. by right.
Qed.

Lemma mock_pay_effect (e : env) (req : request) (tbl : list order_row) :
  (post_api_webhook_mock_pay e req tbl).2 =
  if truthy (field req "orderId") && negb (db_err e)
  then update_row "PAID" (sql_text (field req "orderId")) <$> tbl
  else tbl.
Proof.
  unfold post_api_webhook_mock_pay, update_status.
  destruct (truthy _); [|reflexivity]. by destruct (db_err e).
Qed.

Lemma update_row_other (st : string) (key : option string) (r : order_row) :
  key ≠ Some (order_id r) → update_row st key r = r.
Proof. intros Hne. unfold update_row. by rewrite bool_decide_eq_false_2. Qed.

Lemma update_row_match (st : string) (r : order_row) :
  update_row st (Some (order_id r)) r = set_status st r.
Proof. unfold update_row. by rewrite bool_decide_eq_true_2. Qed.

Lemma order_ids_update (st : string) (key : option string) (tbl : list order_row) :
  order_ids (update_row st key <$> tbl) = order_ids tbl.
Proof.
  unfold order_ids. rewrite <- list_fmap_compose. apply list_fmap_ext.
  intros i r _. apply update_row_id.
Qed.

Lemma orders_after_NoDup (ev : event) (tbl : list order_row) :
  NoDup (order_ids tbl) → NoDup (order_ids (orders_after ev tbl)).
Proof.
  intros Hnd. unfold orders_after. destruct (ev_route ev); try assumption.
  - destruct (topup_effect (ev_env ev) (ev_req ev) tbl) as [->|[Hfresh ->]];
      [assumption | by apply NoDup_order_ids_snoc].
  - rewrite mock_pay_effect. destruct (_ && _); [|assumption].
    by rewrite order_ids_update.
Qed.

(** One request keeps an order, with status PAID when the request marks it
    paid and with its status otherwise. *)
Lemma orders_after_keeps (ev : event) (tbl : list order_row) (r : order_row) :
  r ∈ tbl →
  (if marks_paid (order_id r) ev then set_status "PAID" r else r) ∈ orders_after ev tbl.
Proof.
  intros Hin. unfold orders_after, marks_paid.
  destruct (ev_route ev); try assumption.
  - destruct (topup_effect (ev_env ev) (ev_req ev) tbl) as [->|[_ ->]];
      [assumption | apply elem_of_app; by left].
  - rewrite mock_pay_effect.
    destruct (truthy _); [|assumption].
    destruct (db_err (ev_env ev)); simpl; [by rewrite andb_false_r|].
    rewrite andb_true_r. apply list_elem_of_fmap.
    exists r. split; [|assumption].
    destruct (decide (sql_text (field (ev_req ev) "orderId") = Some (order_id r)))
      as [Heq|Hne].
    + rewrite bool_decide_eq_true_2, Heq by assumption. by rewrite update_row_match.
    + rewrite bool_decide_eq_false_2 by assumption. by rewrite update_row_other.
Qed.

Lemma orders_run_keeps (evs : list event) (tbl : list order_row) (r : order_row) :
  r ∈ tbl →
  set_status (if existsb (marks_paid (order_id r)) evs then "PAID" else order_status r) r
  ∈ foldl (λ t ev, orders_after ev t) tbl evs.
Proof.
  revert tbl r. induction evs as [|ev evs IH]; intros tbl r Hin.
  - simpl. by rewrite set_status_same.
  - cbn [foldl existsb].
    pose proof (orders_after_keeps ev tbl r Hin) as Hstep.
    apply IH in Hstep. destruct (marks_paid (order_id r) ev); simpl in *.
    + destruct (existsb _ evs); exact Hstep.
    + exact Hstep.
Qed.

Section ServerProperties.
Context `{!Bcrypt}.

Lemma seed_admin_orders (b : boot_env) (d : database) :
  orders (seed_admin b d) = orders d.
Proof.
  unfold seed_admin, insert_admin.
  repeat (case_match; try reflexivity); simplify_eq; reflexivity.
Qed.

Lemma handle_orders (ev : event) (s : server) :
  orders (db (handle ev s).2) = orders_after ev (orders (db s)).
Proof.
  unfold handle, orders_after. destruct (ev_route ev).
  - by destruct (post_api_topup _ _ _).
  - destruct (post_api_admin_login _ _ _ _) as [res [a|]]; reflexivity.
  - reflexivity.
  - by destruct (post_api_webhook_mock_pay _ _ _).
  - unfold post_api_admin_logout. by destruct (cookie_sid _).
Qed.

Lemma step_orders (s : server) (ev : event) (res : response) (s' : server) :
  step s ev res s' → orders (db s') = orders_after ev (orders (db s)).
Proof.
  unfold step. intros Hstep.
  destruct (ev_route ev) eqn:Hroute;
    try (rewrite <- (handle_orders ev s), Hstep; reflexivity).
  destruct Hstep as [_ ->]. unfold orders_after. by rewrite Hroute.
Qed.

Lemma handle_step (ev : event) (s : server) :
  step s ev (handle ev s).1 (handle ev s).2.
Proof.
  unfold step. destruct (ev_route ev) eqn:Hroute; try by destruct (handle ev s).
  unfold handle. rewrite Hroute. split; [|reflexivity].
  apply get_api_admin_orders_run_sound.
Qed.

Lemma run_orders (evs : list event) (s : server) :
  orders (db (run evs s)) = foldl (λ t ev, orders_after ev t) (orders (db s)) evs.
Proof.
  revert s. induction evs as [|ev evs IH]; intros s; [reflexivity|].
  unfold run in *. cbn [foldl]. by rewrite IH, handle_orders.
Qed.

Lemma run_reachable (evs : list event) (s : server) :
  reachable s → reachable (run evs s).
Proof.
  revert s. induction evs as [|ev evs IH]; intros s Hs; [assumption|].
  apply IH. eapply reachable_step; [exact Hs | apply handle_step].
Qed.

(** ** The status of an order *)

Lemma orders_after_rows (ev : event) (tbl : list order_row) (r' : order_row) :
  r' ∈ orders_after ev tbl →
  r' ∈ tbl
  ∨ (∃ r, r ∈ tbl ∧ r' = set_status "PAID" r)
  ∨ ((order_id r' ∉ order_ids tbl) ∧ order_status r' = "PENDING"%string).
Proof.
  unfold orders_after. destruct (ev_route ev); try by left.
  - destruct (topup_effect (ev_env ev) (ev_req ev) tbl) as [->|[Hfresh ->]];
      [by left|].
    intros [Hin| ->%list_elem_of_singleton]%elem_of_app; [by left|].
    right; right. by split.
  - rewrite mock_pay_effect. destruct (_ && _); [|by left].
    intros (r & -> & Hr)%list_elem_of_fmap. unfold update_row.
    destruct (bool_decide _); [right; left; by exists r | by left].
Qed.

Lemma orders_after_paid (ev : event) (tbl : list order_row) (r : order_row) :
  r ∈ tbl → order_status r = "PAID"%string → r ∈ orders_after ev tbl.
Proof.
  intros Hin Hpaid. pose proof (orders_after_keeps ev tbl r Hin) as Hkeep.
  rewrite <- Hpaid, set_status_same in Hkeep. by destruct (marks_paid _ _).
Qed.

Lemma orders_after_status_ok (ev : event) (tbl : list order_row) :
  status_ok tbl → status_ok (orders_after ev tbl).
Proof.
  intros Hok r' Hr'.
  destruct (orders_after_rows ev tbl r' Hr') as [Hin|[(r & _ & ->)|[_ Hnew]]].
  - by apply Hok.
  - by right.
  - by left.
Qed.

Lemma reachable_status_ok (s : server) : reachable s → status_ok (orders (db s)).
Proof.
  induction 1 as [b|s ev res s' _ IH Hstep|b s _ IH].
  - unfold boot. cbn [db]. rewrite seed_admin_orders. intros r Hr.
    by apply elem_of_nil in Hr.
  - rewrite (step_orders _ _ _ _ Hstep). by apply orders_after_status_ok.
  - unfold restart. cbn [db]. by rewrite seed_admin_orders.
Qed.

(** The PRIMARY KEY: the ids of a reachable table are pairwise distinct. *)
Lemma reachable_ids_distinct (s : server) :
  reachable s → NoDup (order_ids (orders (db s))).
Proof.
  induction 1 as [b|s ev res s' _ IH Hstep|b s _ IH].
  - unfold boot. cbn [db]. rewrite seed_admin_orders. apply NoDup_nil_2.
  - rewrite (step_orders _ _ _ _ Hstep). by apply orders_after_NoDup.
  - unfold restart. cbn [db]. by rewrite seed_admin_orders.
Qed.

(** C3: in every reachable state each order's status is PENDING or PAID; a
    request leaves a row as it was, or sets its status to PAID, or creates it
    with status PENDING under an id the table did not hold; and a row whose
    status is PAID is still there, unchanged, after any request. *)
Theorem status_lifecycle (s : server) :
  reachable s →
  status_ok (orders (db s))
  ∧ ∀ ev res s', step s ev res s' →
      (∀ r', r' ∈ orders (db s') →
         r' ∈ orders (db s)
         ∨ (∃ r, r ∈ orders (db s) ∧ r' = set_status "PAID" r)
         ∨ ((order_id r' ∉ order_ids (orders (db s)))
            ∧ order_status r' = "PENDING"%string))
      ∧ (∀ r, r ∈ orders (db s) → order_status r = "PAID"%string →
           r ∈ orders (db s')).
Proof.
  intros Hreach. split; [by apply reachable_status_ok|].
  intros ev res s' Hstep. rewrite (step_orders _ _ _ _ Hstep). split.
  - apply orders_after_rows.
  - intros r. apply orders_after_paid.
Qed.

(** ** Created orders in the listing *)

Lemma topup_status_200 (e : env) (req : request) (tbl : list order_row) :
  status (post_api_topup e req tbl).1 = 200 →
  post_api_topup e req tbl =
  ({| status := 200; payload := JsonOrder (uuidv4 e) (success_url req (uuidv4 e)) |},
   tbl ++ [new_order e req]).
Proof.
  unfold post_api_topup.
  destruct ((_ || _) || _); [discriminate|]. destruct (_ || _); [discriminate|].
  unfold new_order. by destruct (insert_order _ _ _) eqn:Hins;
    [unfold insert_order in Hins; repeat case_match; simplify_eq | discriminate].
Qed.

Lemma orders_listed_inv (e : env) (session : option admin_session)
    (tbl rows : list order_row) :
  get_api_admin_orders e session tbl {| status := 200; payload := JsonOrders rows |} →
  is_Some session ∧ select_recent tbl rows.
Proof. inversion 1; by subst. Qed.

Lemma topup_200_guard (e : env) (req : request) (tbl : list order_row) :
  status (post_api_topup e req tbl).1 = 200 →
  ∃ z, amount_value (field req "amount") = Some z ∧ 0 < z.
Proof.
  unfold post_api_topup.
  destruct ((_ || _) || _); [discriminate|].
  destruct (isNaN _ || le_zero _) eqn:Hguard; [discriminate|].
  intros _. by apply amount_guard.
Qed.

(** C8, amended: an order that POST /api/topup has created (answer 200) from
    a user and a game that are strings and an amount that is an integer up
    to 2^53 - 1 is, after any further requests (their orderIds being values
    SQLite compares as the text [sql_text] gives), in every answer of an
    authenticated GET /api/admin/orders for which at most 200 orders are at
    least as recent as it.  It is listed under the id the creation returned,
    with the user, the game and the amount submitted and the created_at it
    was inserted with, and with status PENDING as inserted unless a mock-pay
    call for its id has run since, in which case PAID. *)
Theorem created_order_listed (s : server) (e : env) (req : request)
    (user game : string) (n : Z)
    (evs : list event) (e' : env) (session : admin_session)
    (rows : list order_row) :
  let create := {| ev_env := e; ev_route := POST_api_topup; ev_req := req |} in
  let s' := run evs (handle create s).2 in
  field req "user" = JStr user → field req "game" = JStr game →
  amount_value (field req "amount") = Some n → n ≤ MAX_SAFE_INTEGER →
  status (handle create s).1 = 200 →
  Forall (λ ev, text_bindable (field (ev_req ev) "orderId")) evs →
  get_api_admin_orders e' (Some session) (orders (db s'))
    {| status := 200; payload := JsonOrders rows |} →
  (length (filter (λ r', (CURRENT_TIMESTAMP e ≤ order_created_at r')%Z)
             (orders (db s'))) ≤ 200)%nat →
  payload (handle create s).1 =
    JsonOrder (uuidv4 e)
      (protocol req +:+ "://" +:+ host_text req +:+ "/success?order=" +:+ uuidv4 e)
  ∧ ∃ r, r ∈ rows
         ∧ order_id r = uuidv4 e
         ∧ order_user r = Some user
         ∧ order_game r = Some game
         ∧ order_amount r = Finite n
         ∧ order_created_at r = CURRENT_TIMESTAMP e
         ∧ order_status r =
           (if existsb (marks_paid (uuidv4 e)) evs then "PAID" else "PENDING")%string.
Proof.
  intros create s' Huser Hgame Hamount Hsafe Hok _ Hres Hwin.
  assert (handle create s =
          ((post_api_topup e req (orders (db s))).1,
           with_orders (post_api_topup e req (orders (db s))).2 s)) as Hhandle.
  { unfold handle, create. cbn [ev_route ev_env ev_req].
    by destruct (post_api_topup _ _ _). }
  rewrite Hhandle in Hok. cbn [fst] in Hok.
  pose proof (topup_status_200 _ _ _ Hok) as Hrun.
  destruct (topup_200_guard _ _ _ Hok) as (z & Hz & Hpos).
  rewrite Hamount in Hz. injection Hz as <-.
  split; [by rewrite Hhandle, Hrun|].
  exists (set_status (if existsb (marks_paid (uuidv4 e)) evs then "PAID" else "PENDING")
            (new_order e req)).
  split.
  - apply orders_listed_inv in Hres as [_ Hsel].
    apply (select_recent_window _ _ _ Hsel); [|exact Hwin].
    subst s'. rewrite run_orders, handle_orders.
    unfold orders_after, create. cbn [ev_route ev_env ev_req]. rewrite Hrun. cbn [snd].
    apply (orders_run_keeps evs _ (new_order e req)).
    apply elem_of_app. right. by apply list_elem_of_singleton.
  - cbn [set_status new_order order_id order_user order_game order_amount
         order_created_at order_status].
    rewrite Huser, Hgame, parseInt_amount_value, Hamount.
    rewrite to_number_exact by lia. by destruct (existsb _ evs).
Qed.

(** ** Admin login *)

Lemma get_admin_Some (key : option string) (tbl : list admin_row) (row : admin_row) :
  get_admin key tbl = Some row → row ∈ tbl ∧ admin_username row = key.
Proof.
  unfold get_admin. destruct key as [u|]; [|discriminate].
  intros [Hin Hu%bool_decide_eq_true]%find_some.
  by apply list_elem_of_In in Hin.
Qed.

Lemma get_admin_None (key : option string) (tbl : list admin_row) :
  (∀ a, a ∈ tbl → admin_username a ≠ key) → get_admin key tbl = None.
Proof.
  intros Hno. destruct (get_admin key tbl) as [row|] eqn:Hget; [|reflexivity].
  apply get_admin_Some in Hget as [Hin Hu]. by destruct (Hno row Hin).
Qed.

(** Storing the session a request came with changes nothing. *)
Lemma save_session_same (e : env) (req : request) (s : server) :
  save_session e req (req_session s req) s = s.
Proof.
  unfold save_session, req_session, session_key.
  destruct (cookie_sid req) as [sid|]; simpl; [|reflexivity].
  destruct (sessions s !! sid) as [a|] eqn:Hsid; [|reflexivity].
  rewrite bool_decide_eq_true_2 by done.
  rewrite insert_id by assumption. by destruct s.
Qed.

Lemma login_accepted (s : server) (e : env) (req : request) (row : admin_row) :
  truthy (field req "username") = true → truthy (field req "password") = true →
  db_err e = false →
  get_admin (sql_text (field req "username")) (admins (db s)) = Some row →
  bcrypt_compare (field req "password") (admin_password_hash row) = true →
  handle {| ev_env := e; ev_route := POST_api_admin_login; ev_req := req |} s =
  ({| status := 200; payload := JsonOk |},
   {| db := db s;
      sessions := <[session_key e req s :=
                      {| session_admin_id := admin_id row;
                         session_username := admin_username row |}]>
                    (sessions s) |}).
Proof.
  intros Hu Hp Herr Hget Hok. unfold handle. cbn [ev_route ev_env ev_req].
  unfold post_api_admin_login. by rewrite Hu, Hp, Herr, Hget, Hok.
Qed.

(** C6: POST /api/admin/login answers 400 when username or password is
    missing; with both present and the SELECT not failing it answers 401 when
    no admin row has that username or when bcrypt.compare rejects the
    password; in these cases the server, its session store included, is as
    before.  When the row is found and the password accepted it answers 200
    and stores, under the request's session id, a session holding that row's
    id and username, which is what a later request with that session id
    finds in [req.session.admin]. *)
Theorem login_spec (s : server) (e : env) (req : request) :
  let login := {| ev_env := e; ev_route := POST_api_admin_login; ev_req := req |} in
  let username := field req "username" in
  let password := field req "password" in
  (missing username ∨ missing password →
     handle login s = ({| status := 400; payload := JsonError "Missing" |}, s))
  ∧ (truthy username = true → truthy password = true → db_err e = false →
       (∀ a, a ∈ admins (db s) → admin_username a ≠ sql_text username)
       ∨ (∃ row, get_admin (sql_text username) (admins (db s)) = Some row
                 ∧ bcrypt_compare password (admin_password_hash row) = false) →
       handle login s = ({| status := 401; payload := JsonError "Unauthorized" |}, s))
  ∧ (∀ row,
       truthy username = true → truthy password = true → db_err e = false →
       get_admin (sql_text username) (admins (db s)) = Some row →
       bcrypt_compare password (admin_password_hash row) = true →
       let session := {| session_admin_id := admin_id row;
                         session_username := admin_username row |} in
       row ∈ admins (db s)
       ∧ admin_username row = sql_text username
       ∧ handle login s =
         ({| status := 200; payload := JsonOk |},
          {| db := db s;
             sessions := <[session_key e req s := session]> (sessions s) |})
       ∧ ∀ next, cookie_sid next = Some (session_key e req s) →
           req_session (handle login s).2 next = Some session).
Proof.
  intros login username password. split; [|split].
  - unfold handle, login. cbn [ev_route ev_env ev_req].
    unfold post_api_admin_login, missing. fold username password.
    intros Hmissing.
    assert (negb (truthy username) || negb (truthy password) = true) as ->
        by (destruct Hmissing as [-> | ->]; [reflexivity | apply orb_true_r]).
    by rewrite save_session_same.
  - unfold handle, login. cbn [ev_route ev_env ev_req].
    unfold post_api_admin_login. fold username password.
    intros -> -> -> Hbad. simpl.
    destruct Hbad as [Hno|(row & -> & ->)].
    + rewrite get_admin_None by assumption. by rewrite save_session_same.
    + by rewrite save_session_same.
  - intros row Hu Hp Herr Hget Hok session.
    pose proof (login_accepted s e req row Hu Hp Herr Hget Hok) as Hrun.
    fold login in Hrun. fold session in Hrun.
    apply get_admin_Some in Hget as [Hin Hname].
    repeat split; try assumption.
    intros next Hcookie. rewrite Hrun. unfold req_session. rewrite Hcookie.
    cbn [mbind option_bind snd sessions]. apply lookup_insert_eq.
Qed.

(** X15: login with accepted credentials, then the listing with the session id of
    that login: the listing is answered with 200. *)
Lemma login_then_list_orders (s : server) (e e' : env) (req next : request)
    (row : admin_row) :
  truthy (field req "username") = true → truthy (field req "password") = true →
  db_err e = false →
  get_admin (sql_text (field req "username")) (admins (db s)) = Some row →
  bcrypt_compare (field req "password") (admin_password_hash row) = true →
  cookie_sid next = Some (session_key e req s) → db_err e' = false →
  let s1 := (handle {| ev_env := e; ev_route := POST_api_admin_login; ev_req := req |} s).2 in
  ∀ res s2,
    step s1 {| ev_env := e'; ev_route := GET_api_admin_orders; ev_req := next |} res s2 →
    status res = 200 ∧ s2 = s1.
Proof.
  intros Hu Hp Herr Hget Hok Hcookie Herr' s1 res s2 [Hres ->].
  split; [|reflexivity]. cbn [ev_env ev_req] in Hres.
  subst s1. rewrite (login_accepted s e req row Hu Hp Herr Hget Hok) in Hres.
  unfold req_session in Hres. rewrite Hcookie in Hres.
  cbn [mbind option_bind snd sessions] in Hres. rewrite lookup_insert_eq in Hres.
  by apply orders_authenticated_inv in Hres as (rows & -> & _).
Qed.

(** ** The default admin *)

Lemma insert_admin_unique (io_err : bool) (u p : option string) (d d' : database) :
  NoDup (omap admin_username (admins d)) →
  insert_admin io_err u p d = Some d' →
  NoDup (omap admin_username (admins d')).
Proof.
  intros Hnd. unfold insert_admin. destruct io_err; [discriminate|].
  destruct (bool_decide _) eqn:Hdup; [discriminate|]. intros [= <-].
  apply bool_decide_eq_false in Hdup. cbn [admins].
  rewrite omap_app. apply NoDup_app. split; [assumption|].
  destruct u as [u|]; simpl.
  - split; [|apply NoDup_singleton].
    intros x Hx ->%list_elem_of_singleton. apply Hdup. split; [done|].
    apply list_elem_of_omap in Hx as (a & Ha & Hu).
    apply list_elem_of_fmap. by exists a.
  - split; [|apply NoDup_nil_2]. intros x _ Hx. by apply elem_of_nil in Hx.
Qed.

Lemma seed_admin_unique (b : boot_env) (d : database) :
  NoDup (omap admin_username (admins d)) →
  NoDup (omap admin_username (admins (seed_admin b d))).
Proof.
  intros Hnd. unfold seed_admin.
  repeat (case_match; try assumption).
  by eapply insert_admin_unique.
Qed.

(** C9: at start-up, the COUNT query, bcrypt.hash and the INSERT not failing:
    when the admins table is empty it gets exactly one row, with username
    admin and the bcrypt hash (10 rounds, the salt drawn) of changeit; when it
    is not empty the database is left as it was.  The UNIQUE username is the
    table's: an INSERT of a username already there is refused, and usernames
    stay pairwise distinct through the seeding. *)
Theorem seed_admin_spec (b : boot_env) (d : database) :
  boot_count_err b = false → boot_hash_err b = false → boot_insert_err b = false →
  (admins d = [] →
     admins (seed_admin b d) =
     [{| admin_id := admins_seq d + 1;
         admin_username := Some "admin"%string;
         admin_password_hash := Some (bcrypt_hash "changeit" 10 (boot_salt b)) |}])
  ∧ (admins d ≠ [] → seed_admin b d = d)
  ∧ (∀ io_err u p, Some u ∈ admin_username <$> admins d →
       insert_admin io_err (Some u) p d = None)
  ∧ (NoDup (omap admin_username (admins d)) →
     NoDup (omap admin_username (admins (seed_admin b d)))).
Proof.
  intros Hcount Hhash Hinsert. unfold seed_admin. rewrite Hcount, Hhash, Hinsert.
  split; [|split; [|split]].
  - intros Hempty. rewrite Hempty. simpl.
    unfold insert_admin. rewrite Hempty. simpl. reflexivity.
  - intros Hne. rewrite bool_decide_eq_false_2; [reflexivity|].
    by destruct (admins d).
  - intros io_err u p Hin. unfold insert_admin. destruct io_err; [reflexivity|].
    by rewrite bool_decide_eq_true_2.
  - intros Hnd. pose proof (seed_admin_unique b d Hnd) as Hseed.
    unfold seed_admin in Hseed. by rewrite Hcount, Hhash, Hinsert in Hseed.
Qed.

End ServerProperties.

(** * Further properties of the handlers *)

Section MoreProperties.
Context `{!Bcrypt}.

(** ** The orders table *)

Lemma order_ids_lookup (tbl : list order_row) (i : nat) (r : order_row) :
  tbl !! i = Some r → order_ids tbl !! i = Some (order_id r).
Proof. intros Hi. unfold order_ids. by rewrite list_lookup_fmap, Hi. Qed.

(** X1: the PRIMARY KEY of orders along every run of the server: the ids of
    the table are pairwise distinct, so two rows with the same id are the
    same row at the same place. *)
Theorem orders_primary_key (s : server) :
  reachable s →
  NoDup (order_ids (orders (db s)))
  ∧ ∀ i j r1 r2,
      orders (db s) !! i = Some r1 → orders (db s) !! j = Some r2 →
      order_id r1 = order_id r2 → i = j ∧ r1 = r2.
Proof.
  intros Hreach. pose proof (reachable_ids_distinct s Hreach) as Hnd.
  split; [assumption|]. intros i j r1 r2 Hi Hj Hid.
  assert (i = j) as ->.
  { eapply NoDup_lookup; [exact Hnd | by apply order_ids_lookup |].
    rewrite Hid. by apply order_ids_lookup. }
  split; [reflexivity | congruence].
Qed.

(** X2: a POST /api/topup that passes validation but whose INSERT fails, on an
    I/O error or because the generated id is already a key of the table, is
    answered 500 {error:'DB error'} and adds no row. *)
Theorem create_order_insert_fails (e : env) (req : request) (tbl : list order_row)
    (n : Z) :
  truthy (field req "user") = true → truthy (field req "game") = true →
  amount_value (field req "amount") = Some n → 0 < n →
  db_err e = true ∨ uuidv4 e ∈ order_ids tbl →
  post_api_topup e req tbl = ({| status := 500; payload := JsonError "DB error" |}, tbl).
Proof.
  intros Hu Hg Ha Hn Hfail. unfold post_api_topup.
  rewrite Hu, Hg, (amount_value_truthy _ _ Ha Hn). simpl.
  assert (isNaN (parseInt (field req "amount")) || le_zero (parseInt (field req "amount"))
          = false) as -> by (apply amount_guard; eauto).
  unfold insert_order. destruct (db_err e); [reflexivity|].
  destruct Hfail as [|Hin]; [discriminate|]. cbn [order_id].
  by rewrite bool_decide_eq_true_2.
Qed.

(** X3: the three outcomes of POST /api/topup: either 200 with the id of
    [uuidv4()], which was not in the table, and exactly one row appended; or
    400 or 500 with an error body and the table as it was. *)
Theorem create_order_outcomes (e : env) (req : request) (tbl : list order_row) :
  (post_api_topup e req tbl =
     ({| status := 200;
         payload := JsonOrder (uuidv4 e) (success_url req (uuidv4 e)) |},
      tbl ++ [new_order e req])
   ∧ (uuidv4 e ∉ order_ids tbl) ∧ db_err e = false)
  ∨ (∃ code reason,
       (code = 400 ∨ code = 500)
       ∧ post_api_topup e req tbl =
         ({| status := code; payload := JsonError reason |}, tbl)).
Proof.
  unfold post_api_topup, new_order, success_url.
  destruct ((_ || _) || _); [right; eexists _, _; eauto|].
  destruct (_ || _); [right; eexists _, _; eauto|].
  unfold insert_order. destruct (db_err e); [right; eexists _, _; eauto|].
  cbn [order_id]. destruct (decide (uuidv4 e ∈ order_ids tbl)) as [Hin|Hfresh].
  - rewrite bool_decide_eq_true_2 by assumption. right; eexists _, _; eauto.
  - rewrite bool_decide_eq_false_2 by assumption. by left.
Qed.

Lemma truthy_text_present (v : jsval) : truthy v = true → text_present (sql_text v).
Proof.
  destruct v as [| |[]|z|[|c s]]; try discriminate; intros Hv.
  - by exists "1"%string.
  - eexists. split; [reflexivity|]. unfold ToString.
    destruct (z <? 0) eqn:Hneg; [discriminate|].
    apply Z.ltb_ge in Hneg. by destruct (decimal_spec z Hneg) as (_ & Hne & _).
  - by eexists.
Qed.

Lemma amount_guard_positive (v : jsval) :
  isNaN (parseInt v) || le_zero (parseInt v) = false → amount_positive (parseInt v).
Proof.
  destruct (parseInt v) as [|z|[]]; simpl; try discriminate; try done.
  intros Hz. apply Z.leb_gt in Hz. lia.
Qed.

Lemma topup_inserts_validated (e : env) (req : request) (tbl : list order_row) :
  (post_api_topup e req tbl).2 = tbl
  ∨ ((post_api_topup e req tbl).2 = tbl ++ [new_order e req]
     ∧ order_validated (new_order e req)).
Proof.
  unfold post_api_topup.
  destruct (truthy (field req "user")) eqn:Hu; [|by left].
  destruct (truthy (field req "game")) eqn:Hg; [|by left].
  destruct (truthy (field req "amount")) eqn:Ha; [|by left]. simpl.
  destruct (isNaN _ || le_zero _) eqn:Hguard; [by left|].
  destruct (insert_order _ _ _) as [tbl'|] eqn:Hins; [|by left].
  right. unfold insert_order in Hins.
  destruct (db_err e); [discriminate|].
  destruct (bool_decide _); [discriminate|]. injection Hins as <-.
  split; [reflexivity|]. unfold order_validated, new_order. cbn.
  auto using truthy_text_present, amount_guard_positive.
Qed.

Lemma orders_after_validated (ev : event) (tbl : list order_row) :
  Forall order_validated tbl → Forall order_validated (orders_after ev tbl).
Proof.
  intros Hall. unfold orders_after. destruct (ev_route ev); try assumption.
  - destruct (topup_inserts_validated (ev_env ev) (ev_req ev) tbl) as [->|[-> Hnew]];
      [assumption|].
    apply Forall_app. split; [assumption|]. by apply Forall_singleton.
  - rewrite mock_pay_effect. destruct (_ && _); [|assumption].
    apply Forall_fmap. eapply Forall_impl; [exact Hall|].
    intros r Hr. unfold compose, update_row. by case_match.
Qed.

(** X4: what validation guarantees of the stored orders, along every run of
    the server: user and game are neither NULL nor empty, and the amount is a
    number above zero (never NaN, zero or negative). *)
Theorem stored_orders_validated (s : server) :
  reachable s →
  ∀ r, r ∈ orders (db s) →
    text_present (order_user r) ∧ text_present (order_game r)
    ∧ amount_positive (order_amount r).
Proof.
  intros Hreach.
  assert (Forall order_validated (orders (db s))) as Hall.
  { induction Hreach as [b|s ev res s' _ IH Hstep|b s _ IH].
    - unfold boot. cbn [db]. rewrite seed_admin_orders. constructor.
    - rewrite (step_orders _ _ _ _ Hstep). by apply orders_after_validated.
    - unfold restart. cbn [db]. by rewrite seed_admin_orders. }
  intros r Hr. by apply (proj1 (Forall_forall _ _) Hall r Hr).
Qed.

(** X5: a valid POST /api/topup whose amount is a JSON number, an integer n
    with 0 < n <= 2^53 - 1, stores exactly n: printing the number and parsing
    it back with parseInt loses nothing. *)
Theorem create_order_integer_amount (e : env) (req : request) (tbl : list order_row)
    (n : Z) :
  truthy (field req "user") = true → truthy (field req "game") = true →
  field req "amount" = JNum n → 0 < n → n ≤ MAX_SAFE_INTEGER →
  db_err e = false → uuidv4 e ∉ order_ids tbl →
  parseInt (field req "amount") = Finite n
  ∧ ∃ row,
      (post_api_topup e req tbl).1.(status) = 200
      ∧ (post_api_topup e req tbl).2 = tbl ++ [row]
      ∧ order_amount row = Finite n.
Proof.
  intros Hu Hg Hfield Hpos Hsafe Herr Hfresh.
  assert (parseInt (field req "amount") = Finite n) as Hparse.
  { rewrite parseInt_amount_value, Hfield, amount_value_num.
    apply to_number_exact. lia. }
  split; [assumption|].
  destruct (topup_accepted e req tbl n) as [Hrun _]; try assumption.
  { rewrite Hfield. apply amount_value_num. }
  exists (new_order e req). rewrite Hrun. by repeat split.
Qed.

Lemma Forall2_kept_refl (tbl : list order_row) : Forall2 kept_as tbl tbl.
Proof. induction tbl; constructor; [by left | assumption]. Qed.

Lemma Forall2_kept_update (key : option string) (tbl : list order_row) :
  Forall2 kept_as tbl (update_row "PAID" key <$> tbl).
Proof.
  induction tbl as [|r tbl IH]; [constructor|].
  rewrite fmap_cons. constructor; [|assumption].
  unfold kept_as, update_row. case_match; auto.
Qed.

Lemma orders_after_shape (ev : event) (tbl : list order_row) :
  ∃ kept added,
    orders_after ev tbl = kept ++ added
    ∧ Forall2 kept_as tbl kept ∧ (length added ≤ 1)%nat.
Proof.
  unfold orders_after. destruct (ev_route ev).
  - destruct (topup_effect (ev_env ev) (ev_req ev) tbl) as [->|[_ ->]].
    + exists tbl, []. rewrite app_nil_r. auto using Forall2_kept_refl.
    + exists tbl, [new_order (ev_env ev) (ev_req ev)]. auto using Forall2_kept_refl.
  - exists tbl, []. rewrite app_nil_r. auto using Forall2_kept_refl.
  - exists tbl, []. rewrite app_nil_r. auto using Forall2_kept_refl.
  - rewrite mock_pay_effect. destruct (_ && _).
    + eexists _, []. rewrite app_nil_r. auto using Forall2_kept_update.
    + exists tbl, []. rewrite app_nil_r. auto using Forall2_kept_refl.
  - exists tbl, []. rewrite app_nil_r. auto using Forall2_kept_refl.
Qed.

(** X6: no request deletes, reorders or rewrites an order: after any request
    the table is the old rows in their old places, each as it was or with its
    status set to PAID, followed by at most one new row. *)
Theorem orders_never_deleted (s : server) (ev : event) (res : response) (s' : server) :
  step s ev res s' →
  ∃ kept added,
    orders (db s') = kept ++ added
    ∧ Forall2 kept_as (orders (db s)) kept
    ∧ (length added ≤ 1)%nat
    ∧ order_ids kept = order_ids (orders (db s)).
Proof.
  intros Hstep. rewrite (step_orders _ _ _ _ Hstep).
  destruct (orders_after_shape ev (orders (db s))) as (kept & added & Heq & Hkept & Hlen).
  exists kept, added. repeat split; try assumption.
  clear Heq. induction Hkept as [|r r' tbl kept [-> | ->] _ IH]; [reflexivity| |];
    unfold order_ids in *; rewrite !fmap_cons, IH; reflexivity.
Qed.

(** X7: with at most 200 orders in the table, an authenticated listing whose
    SELECT does not fail returns every order: the rows of the answer are a
    permutation of the table. *)
Theorem list_orders_small_table (e : env) (a : admin_session) (tbl : list order_row)
    (res : response) :
  (length tbl ≤ 200)%nat → db_err e = false →
  get_api_admin_orders e (Some a) tbl res →
  ∃ rows, res = {| status := 200; payload := JsonOrders rows |} ∧ rows ≡ₚ tbl.
Proof.
  intros Hlen Herr Hres.
  apply orders_authenticated_inv in Hres as (rows & -> & sorted & Hperm & _ & ->);
    [|assumption].
  eexists. split; [reflexivity|].
  rewrite take_ge by (rewrite Hperm; lia). assumption.
Qed.

(** ** The admins table and the sessions *)

Lemma handle_db_admins (ev : event) (s : server) :
  admins (db (handle ev s).2) = admins (db s)
  ∧ admins_seq (db (handle ev s).2) = admins_seq (db s).
Proof.
  unfold handle. destruct (ev_route ev).
  - by destruct (post_api_topup _ _ _).
  - destruct (post_api_admin_login _ _ _ _) as [res [a|]]; done.
  - done.
  - by destruct (post_api_webhook_mock_pay _ _ _).
  - unfold post_api_admin_logout. by destruct (cookie_sid _).
Qed.

Lemma step_state (s : server) (ev : event) (res : response) (s' : server) :
  step s ev res s' → s' = (handle ev s).2.
Proof.
  unfold step. intros Hstep. destruct (ev_route ev) eqn:Hroute;
    try (by rewrite Hstep).
  destruct Hstep as [_ ->]. unfold handle. by rewrite Hroute.
Qed.

Lemma seed_admin_seeded (b : boot_env) (d : database) :
  admins_seeded d → admins_seeded (seed_admin b d).
Proof.
  intros [[Hempty Hseq]|(salt & Hrow & Hseq)]; unfold seed_admin.
  - destruct (boot_count_err b); [by left|]. rewrite Hempty. simpl.
    destruct (boot_hash_err b); [by left|]. unfold insert_admin.
    destruct (boot_insert_err b); [by left|]. rewrite Hempty. simpl.
    right. exists (boot_salt b). by rewrite Hseq.
  - destruct (boot_count_err b); [right; eauto|]. rewrite Hrow. simpl.
    right; eauto.
Qed.

Lemma reachable_admins_seeded (s : server) : reachable s → admins_seeded (db s).
Proof.
  induction 1 as [b|s ev res s' _ IH Hstep|b s _ IH].
  - apply seed_admin_seeded. by left.
  - apply step_state in Hstep as ->.
    destruct (handle_db_admins ev s) as [Ha Hs]. unfold admins_seeded.
    by rewrite Ha, Hs.
  - by apply seed_admin_seeded.
Qed.

(** X8: no route writes the admins table, and the only account a database the
    server made ever holds is the seeded one: username admin, id 1, the hash
    of changeit.  The default password is never rotated by the server. *)
Theorem admins_only_default (s : server) :
  reachable s →
  (admins (db s) = [] ∨ ∃ salt, admins (db s) = [default_admin salt])
  ∧ ∀ ev res s', step s ev res s' → admins (db s') = admins (db s).
Proof.
  intros Hreach. split.
  - destruct (reachable_admins_seeded s Hreach) as [[? _]|(salt & ? & _)]; eauto.
  - intros ev res s' ->%step_state. apply handle_db_admins.
Qed.

Lemma login_session_cases (e : env) (req : request) (tbl : list admin_row)
    (session : option admin_session) :
  (post_api_admin_login e req tbl session).2 = session
  ∨ ∃ row, row ∈ tbl
           ∧ bcrypt_compare (field req "password") (admin_password_hash row) = true
           ∧ (post_api_admin_login e req tbl session).2 = Some (session_of row).
Proof.
  unfold post_api_admin_login.
  destruct (_ || _); [by left|]. destruct (db_err e); [by left|].
  destruct (get_admin _ _) as [row|] eqn:Hget; [|by left].
  destruct (bcrypt_compare _ _) eqn:Hok; [|by left].
  right. exists row. apply get_admin_Some in Hget as [Hin _]. done.
Qed.

Lemma handle_sessions_authentic (ev : event) (s : server) :
  sessions_authentic s → sessions_authentic (handle ev s).2.
Proof.
  intros Hs sid a. pose proof (handle_db_admins ev s) as [Hadm _].
  rewrite Hadm. clear Hadm. unfold handle. destruct (ev_route ev).
  - destruct (post_api_topup _ _ _). apply Hs.
  - pose proof (login_session_cases (ev_env ev) (ev_req ev) (admins (db s))
                  (req_session s (ev_req ev))) as Hcases.
    destruct (post_api_admin_login _ _ _ _) as [res a']. cbn [snd] in *.
    destruct Hcases as [->|(row & Hin & _ & ->)].
    + rewrite save_session_same. apply Hs.
    + cbn [save_session sessions]. intros Hlook.
      apply lookup_insert_Some in Hlook as [[_ <-]|[_ Hlook]]; eauto.
  - apply Hs.
  - destruct (post_api_webhook_mock_pay _ _ _). apply Hs.
  - unfold post_api_admin_logout. cbn [snd]. destruct (cookie_sid _) as [c|]; [|apply Hs].
    cbn [sessions]. intros [_ Hlook]%lookup_delete_Some. eauto.
Qed.

Lemma login_cases (e : env) (req : request) (tbl : list admin_row)
    (session : option admin_session) :
  (∃ code reason,
     code ≠ 200
     ∧ post_api_admin_login e req tbl session =
       ({| status := code; payload := JsonError reason |}, session))
  ∨ ∃ row,
      get_admin (sql_text (field req "username")) tbl = Some row
      ∧ bcrypt_compare (field req "password") (admin_password_hash row) = true
      ∧ post_api_admin_login e req tbl session =
        ({| status := 200; payload := JsonOk |}, Some (session_of row)).
Proof.
  unfold post_api_admin_login.
  destruct (_ || _); [left; by exists 400, "Missing"%string|].
  destruct (db_err e); [left; by exists 500, "DB"%string|].
  destruct (get_admin _ _) as [row|] eqn:Hget;
    [|left; by exists 401, "Unauthorized"%string].
  destruct (bcrypt_compare _ _) eqn:Hok;
    [|left; by exists 401, "Unauthorized"%string].
  right. by exists row.
Qed.

(** X9: sessions belong to admins and come from accepted logins.  Along
    every run of the server each session in the store holds the id and the
    username of a row of the admins table; and a session that is in the
    store after a request was there before it, or the request is a login
    answered 200 that found the row of the submitted username and for which
    bcrypt.compare accepted the submitted password against that row's
    hash. *)
Theorem sessions_of_admins (s : server) :
  reachable s →
  (∀ sid a, sessions s !! sid = Some a →
     ∃ row, row ∈ admins (db s)
            ∧ session_admin_id a = admin_id row
            ∧ session_username a = admin_username row)
  ∧ ∀ ev res s' sid a,
      step s ev res s' → sessions s' !! sid = Some a →
      sessions s !! sid = Some a
      ∨ (ev_route ev = POST_api_admin_login
         ∧ res = {| status := 200; payload := JsonOk |}
         ∧ ∃ row, row ∈ admins (db s)
                  ∧ admin_username row = sql_text (field (ev_req ev) "username")
                  ∧ bcrypt_compare (field (ev_req ev) "password")
                      (admin_password_hash row) = true
                  ∧ session_admin_id a = admin_id row
                  ∧ session_username a = admin_username row).
Proof.
  intros Hreach. split.
  - assert (sessions_authentic s) as Hs.
    { induction Hreach as [b|s ev res s' _ IH Hstep|b s _ IH].
      - intros sid a Hlook. cbn in Hlook. by rewrite lookup_empty in Hlook.
      - apply step_state in Hstep as ->. by apply handle_sessions_authentic.
      - intros sid a Hlook. cbn in Hlook. by rewrite lookup_empty in Hlook. }
    intros sid a Hlook. destruct (Hs sid a Hlook) as (row & Hin & ->). eauto.
  - clear Hreach. intros ev res s' sid a. unfold step, handle.
    destruct (ev_route ev) eqn:Hroute.
    + destruct (post_api_topup _ _ _). intros [= _ <-]. by left.
    + destruct (login_cases (ev_env ev) (ev_req ev) (admins (db s))
                  (req_session s (ev_req ev)))
        as [(code & reason & _ & ->)|(row & Hget & Hok & ->)].
      * intros [= _ <-]. rewrite save_session_same. by left.
      * intros [= <- <-]. cbn [save_session sessions].
        intros [[_ <-]|[_ Hlook]]%lookup_insert_Some; [|by left].
        right. apply get_admin_Some in Hget as [Hin Hname].
        split; [reflexivity|]. split; [reflexivity|]. by exists row.
    + intros [_ ->]. by left.
    + destruct (post_api_webhook_mock_pay _ _ _). intros [= _ <-]. by left.
    + unfold post_api_admin_logout. intros [= _ <-].
      destruct (cookie_sid _) as [c|]; [|by left].
      cbn [sessions]. intros [_ Hlook]%lookup_delete_Some. by left.
Qed.

Lemma with_orders_same (s : server) : with_orders (orders (db s)) s = s.
Proof. by destruct s as [[] ?]. Qed.

Lemma topup_db_err (e : env) (req : request) (tbl : list order_row) :
  db_err e = true →
  ∃ code reason,
    (code = 400 ∨ code = 500)
    ∧ post_api_topup e req tbl = ({| status := code; payload := JsonError reason |}, tbl).
Proof.
  intros Herr. unfold post_api_topup, insert_order. rewrite Herr.
  destruct ((_ || _) || _); [eexists _, _; eauto|].
  destruct (_ || _); eexists _, _; eauto.
Qed.

Lemma login_db_err (e : env) (req : request) (tbl : list admin_row)
    (session : option admin_session) :
  db_err e = true →
  ∃ code reason,
    (code = 400 ∨ code = 500)
    ∧ post_api_admin_login e req tbl session =
      ({| status := code; payload := JsonError reason |}, session).
Proof.
  intros Herr. unfold post_api_admin_login. rewrite Herr.
  destruct (_ || _); eexists _, _; eauto.
Qed.

Lemma mock_pay_db_err (e : env) (req : request) (tbl : list order_row) :
  db_err e = true →
  ∃ code reason,
    (code = 400 ∨ code = 500)
    ∧ post_api_webhook_mock_pay e req tbl =
      ({| status := code; payload := JsonError reason |}, tbl).
Proof.
  intros Herr. unfold post_api_webhook_mock_pay, update_status. rewrite Herr.
  destruct (negb _); eexists _, _; eauto.
Qed.

(** X10: a storage failure changes nothing: when the SQLite call of a request
    fails, on any route that makes one, the server state is as before and the
    answer is an error, 400, 401 or 500, never 200. *)
Theorem storage_error_changes_nothing (s : server) (ev : event) (res : response)
    (s' : server) :
  db_err (ev_env ev) = true → ev_route ev ≠ POST_api_admin_logout →
  step s ev res s' →
  s' = s
  ∧ (status res = 400 ∨ status res = 401 ∨ status res = 500)
  ∧ ∃ reason, payload res = JsonError reason.
Proof.
  intros Herr Hroute. unfold step, handle.
  destruct (ev_route ev); [| | | |done].
  - destruct (topup_db_err (ev_env ev) (ev_req ev) (orders (db s)) Herr)
      as (code & reason & Hcode & ->).
    intros [= <- <-]. rewrite with_orders_same. cbn. intuition eauto.
  - destruct (login_db_err (ev_env ev) (ev_req ev) (admins (db s))
                (req_session s (ev_req ev)) Herr) as (code & reason & Hcode & ->).
    intros [= <- <-]. rewrite save_session_same. cbn. intuition eauto.
  - intros [Hres ->]. split; [reflexivity|].
    inversion Hres; subst; [eauto 10 | eauto 10 | congruence].
  - destruct (mock_pay_db_err (ev_env ev) (ev_req ev) (orders (db s)) Herr)
      as (code & reason & Hcode & ->).
    intros [= <- <-]. rewrite with_orders_same. cbn. intuition eauto.
Qed.

(** X11: POST /api/admin/logout always answers 200 {ok:true}, leaves the
    database and every other session alone, and removes the session of the
    request: a listing with the same cookie is answered 401 afterwards, and a
    second logout changes nothing more. *)
Theorem logout_spec (s : server) (e : env) (req : request) :
  let logout := {| ev_env := e; ev_route := POST_api_admin_logout; ev_req := req |} in
  let s1 := (handle logout s).2 in
  (handle logout s).1 = {| status := 200; payload := JsonOk |}
  ∧ db s1 = db s
  ∧ req_session s1 req = None
  ∧ (∀ other, cookie_sid other ≠ cookie_sid req →
       req_session s1 other = req_session s other)
  ∧ (handle logout s1).2 = s1
  ∧ ∀ e' res s2,
      step s1 {| ev_env := e'; ev_route := GET_api_admin_orders; ev_req := req |} res s2 →
      res = {| status := 401; payload := JsonError "unauth" |} ∧ s2 = s1.
Proof.
  intros logout s1.
  assert (req_session s1 req = None) as Hgone.
  { subst s1 logout. unfold handle, post_api_admin_logout, req_session.
    cbn [ev_route ev_req snd].
    destruct (cookie_sid req) as [sid|]; [|reflexivity].
    cbn [mbind option_bind sessions]. apply lookup_delete_eq. }
  split; [reflexivity|]. split; [|split; [assumption|split; [|split]]].
  - subst s1 logout. unfold handle, post_api_admin_logout. cbn [ev_route ev_req snd].
    by destruct (cookie_sid req).
  - intros other Hother. subst s1 logout.
    unfold handle, post_api_admin_logout, req_session. cbn [ev_route ev_req snd].
    destruct (cookie_sid req) as [sid|]; [|reflexivity].
    destruct (cookie_sid other) as [sid'|]; [|reflexivity].
    cbn [mbind option_bind sessions]. apply lookup_delete_ne. congruence.
  - subst s1 logout. unfold handle, post_api_admin_logout. cbn [ev_route ev_req snd].
    destruct (cookie_sid req) as [sid|]; [|reflexivity].
    cbn [db sessions]. by rewrite delete_delete_eq.
  - intros e' res s2 [Hres ->]. split; [|reflexivity].
    cbn [ev_req] in Hres. rewrite Hgone in Hres.
    inversion Hres as [|[a Ha] _|rows [a Ha] _ _]; done.
Qed.

Lemma handle_no_admins (ev : event) (s : server) :
  admins (db s) = [] → sessions s = ∅ →
  admins (db (handle ev s).2) = [] ∧ sessions (handle ev s).2 = ∅.
Proof.
  intros Hadm Hsess. split; [by rewrite (proj1 (handle_db_admins ev s))|].
  unfold handle. destruct (ev_route ev).
  - by destruct (post_api_topup _ _ _).
  - pose proof (login_session_cases (ev_env ev) (ev_req ev) (admins (db s))
                  (req_session s (ev_req ev))) as Hcases.
    destruct (post_api_admin_login _ _ _ _) as [res a']. cbn [snd] in *.
    destruct Hcases as [->|(row & Hin & _)].
    + by rewrite save_session_same.
    + rewrite Hadm in Hin. by apply elem_of_nil in Hin.
  - assumption.
  - by destruct (post_api_webhook_mock_pay _ _ _).
  - unfold post_api_admin_logout. cbn [snd]. destruct (cookie_sid _); [|assumption].
    cbn [sessions]. rewrite Hsess. apply delete_empty.
Qed.

Lemma run_no_admins (evs : list event) (s : server) :
  admins (db s) = [] → sessions s = ∅ →
  admins (db (run evs s)) = [] ∧ sessions (run evs s) = ∅.
Proof.
  revert s. induction evs as [|ev evs IH]; intros s Hadm Hsess; [done|].
  destruct (handle_no_admins ev s Hadm Hsess) as [Hadm' Hsess'].
  apply (IH _ Hadm' Hsess').
Qed.

Lemma login_no_admins (e : env) (req : request) (session : option admin_session) :
  ∃ code reason,
    code ≠ 200
    ∧ post_api_admin_login e req [] session =
      ({| status := code; payload := JsonError reason |}, session).
Proof.
  unfold post_api_admin_login.
  assert (get_admin (sql_text (field req "username")) [] = None) as ->
      by (by destruct (sql_text _)).
  destruct (_ || _); [by exists 400, "Missing"%string|].
  destruct (db_err e); [by exists 500, "DB"%string | by exists 401, "Unauthorized"%string].
Qed.

(** X12: when the seeding fails on the first start (the COUNT query or
    bcrypt.hash passes an error, which the callbacks ignore), there is no
    admin and, whatever requests follow, no login is answered 200, no session
    exists and every listing is answered 401. *)
Theorem failed_seed_locks_out (b : boot_env) (evs : list event) :
  boot_count_err b = true ∨ boot_hash_err b = true →
  let s := run evs (boot b) in
  admins (db s) = [] ∧ sessions s = ∅
  ∧ (∀ e req res s',
       step s {| ev_env := e; ev_route := POST_api_admin_login; ev_req := req |} res s' →
       status res ≠ 200 ∧ s' = s)
  ∧ (∀ e req res s',
       step s {| ev_env := e; ev_route := GET_api_admin_orders; ev_req := req |} res s' →
       res = {| status := 401; payload := JsonError "unauth" |}).
Proof.
  intros Hfail s.
  assert (admins (db (boot b)) = []) as Hboot.
  { unfold boot, seed_admin, insert_admin. cbn.
    destruct Hfail as [-> | ->]; repeat case_match; simplify_eq; reflexivity. }
  destruct (run_no_admins evs (boot b) Hboot eq_refl) as [Hadm Hsess]. fold s in Hadm, Hsess.
  split; [assumption|]. split; [assumption|]. split.
  - intros e req res s'. unfold step, handle. cbn [ev_route ev_env ev_req].
    rewrite Hadm.
    destruct (login_no_admins e req (req_session s req)) as (code & reason & Hcode & ->).
    intros [= <- <-]. by rewrite save_session_same.
  - intros e req res s' [Hres _]. cbn [ev_env ev_req] in Hres.
    assert (req_session s req = None) as Hnone.
    { unfold req_session. rewrite Hsess. destruct (cookie_sid req); [|reflexivity].
      cbn. apply lookup_empty. }
    rewrite Hnone in Hres. inversion Hres as [|[a Ha] _|rows [a Ha] _ _]; done.
Qed.

(** X13: the default credentials keep working: in every state the server can
    reach with an admin in the table, and bcrypt.compare accepting changeit
    against the stored hash made of it, a login as admin / changeit whose
    SELECT does not fail is answered 200 and opens a session for admin id 1. *)
Theorem default_credentials_log_in (s : server) (e : env) (req : request) :
  reachable s → admins (db s) ≠ [] →
  (∀ salt, default_admin salt ∈ admins (db s) →
     bcrypt_compare (JStr defaultPass) (Some (bcrypt_hash defaultPass 10 salt)) = true) →
  field req "username" = JStr "admin" → field req "password" = JStr "changeit" →
  db_err e = false →
  handle {| ev_env := e; ev_route := POST_api_admin_login; ev_req := req |} s =
  ({| status := 200; payload := JsonOk |},
   {| db := db s;
      sessions := <[session_key e req s :=
                      {| session_admin_id := 1; session_username := Some "admin"%string |}]>
                    (sessions s) |}).
Proof.
  intros Hreach Hne Hlaw Hu Hp Herr.
  destruct (reachable_admins_seeded s Hreach) as [[Hempty _]|(salt & Hrow & _)];
    [contradiction|].
  apply (login_accepted s e req (default_admin salt)).
  - by rewrite Hu.
  - by rewrite Hp.
  - assumption.
  - rewrite Hu, Hrow. reflexivity.
  - rewrite Hp. apply Hlaw. rewrite Hrow. by apply list_elem_of_singleton.
Qed.

(** ** Signs and white space in the amount *)

Lemma trim_start_app (ws s : string) :
  all_white_space ws = true → trim_start (ws +:+ s) = trim_start s.
Proof.
  induction ws as [|c ws IH]; [reflexivity|]. simpl.
  intros [Hc Hws]%andb_prop.
  change (String c ws +:+ s) with (String c (ws +:+ s)). cbn [trim_start].
  rewrite Hc. by apply IH.
Qed.

Lemma StringToMathInt_app (ws s : string) :
  all_white_space ws = true → StringToMathInt (ws +:+ s) = StringToMathInt s.
Proof. intros Hws. unfold StringToMathInt. by rewrite trim_start_app. Qed.

Lemma StringToMathInt_plus (s : string) :
  StringToMathInt (String "+" s) =
  match leading_digits s with
  | EmptyString => None
  | digits => Some (1 * digits_value 0 digits)
  end.
Proof. reflexivity. Qed.

Lemma digits_value_nonneg (s : string) (a : Z) :
  0 ≤ a → all_digits s = true → 0 ≤ digits_value a s.
Proof.
  revert a. induction s as [|c s IH]; intros a Ha Hs; simpl in *; [assumption|].
  apply andb_prop in Hs as [Hc Hs]. apply digit_value_range in Hc.
  apply IH; [lia | assumption].
Qed.

Lemma truthy_app_cons (ws : string) (c : ascii) (s : string) :
  truthy (JStr (ws +:+ String c s)) = true.
Proof. by destruct ws. Qed.

(** X14: signs and leading white space in the amount of POST /api/topup.  A
    numeral preceded by white space and a minus sign is refused with 400
    'Invalid amount'; preceded by white space and an optional plus sign, and
    above zero, it is accepted and stored as the numeral's number. *)
Theorem create_order_signed_amount (e : env) (req : request) (tbl : list order_row)
    (ws ds rest : string) :
  truthy (field req "user") = true → truthy (field req "game") = true →
  all_white_space ws = true →
  all_digits ds = true → ds ≠ EmptyString → no_leading_digit rest = true →
  (field req "amount" = JStr (ws +:+ String "-" (ds +:+ rest)) →
     post_api_topup e req tbl =
     ({| status := 400; payload := JsonError "Invalid amount" |}, tbl))
  ∧ (field req "amount" = JStr (ws +:+ ds +:+ rest)
     ∨ field req "amount" = JStr (ws +:+ String "+" (ds +:+ rest)) →
     0 < digits_value 0 ds → db_err e = false → uuidv4 e ∉ order_ids tbl →
     post_api_topup e req tbl =
       ({| status := 200;
           payload := JsonOrder (uuidv4 e) (success_url req (uuidv4 e)) |},
        tbl ++ [new_order e req])
     ∧ order_amount (new_order e req) = to_number (digits_value 0 ds)).
Proof.
  intros Hu Hg Hws Hall Hne Hrest.
  assert (leading_digits (ds +:+ rest) = ds) as Hlead by (by apply leading_digits_app).
  assert (∃ c r, ds = String c r) as (c & r & Hds) by (destruct ds; [done | eauto]).
  split.
  - intros Hfield. unfold post_api_topup.
    rewrite Hu, Hg, Hfield, truthy_app_cons. simpl.
    assert (amount_value (JStr (ws +:+ String "-" (ds +:+ rest)))
            = Some (-1 * digits_value 0 ds)) as Hval.
    { unfold amount_value, ToString.
      rewrite StringToMathInt_app, StringToMathInt_minus, Hlead by assumption.
      by rewrite Hds. }
    destruct (isNaN _ || le_zero _) eqn:Hguard; [reflexivity|].
    apply amount_guard in Hguard as (z & Hz & Hpos).
    rewrite Hval in Hz. injection Hz as <-.
    pose proof (digits_value_nonneg ds 0 ltac:(lia) Hall). lia.
  - intros Hfield Hpos Herr Hfresh.
    apply (topup_accepted e req tbl (digits_value 0 ds)); try assumption.
    destruct Hfield as [-> | ->]; unfold amount_value, ToString.
    + rewrite StringToMathInt_app by assumption. by apply StringToMathInt_digits.
    + rewrite StringToMathInt_app, StringToMathInt_plus, Hlead by assumption.
      rewrite Hds. f_equal. rewrite <- Hds. lia.
Qed.

End MoreProperties.

(** ** The properties on a run of the server *)

#[local] Existing Instance toy_bcrypt.

(** After start-up and CreateOrder("alice", "COIN-100", 50000). *)
Lemma status_lifecycle_witness :
  let s := run [topup_alice] (boot sample_boot) in
  orders (db s) = [sample_row order_1 100]
  ∧ status_ok (orders (db s))
  ∧ ∀ ev res s', step s ev res s' →
      (∀ r', r' ∈ orders (db s') →
         r' ∈ orders (db s)
         ∨ (∃ r, r ∈ orders (db s) ∧ r' = set_status "PAID" r)
         ∨ ((order_id r' ∉ order_ids (orders (db s)))
            ∧ order_status r' = "PENDING"%string))
      ∧ (∀ r, r ∈ orders (db s) → order_status r = "PAID"%string →
           r ∈ orders (db s')).
Proof.
  intros s. split; [by vm_compute|].
  apply status_lifecycle. apply run_reachable, reachable_boot.
Defined.

(** CreateOrder("alice", "COIN-100", 50000), then MarkPaid of its id: the
    listing holds the order, as submitted, with status PAID. *)
Lemma created_order_listed_witness :
  let s := boot sample_boot in
  let s' := run [pay_order_1] (handle topup_alice s).2 in
  payload (handle topup_alice s).1 =
    JsonOrder order_1
      "http://localhost:3000/success?order=7d3c1c1e-5f0a-4d8e-9b1a-2f6c0e4a9b11"
  ∧ ∃ r, r ∈ select_recent_run (orders (db s'))
         ∧ order_id r = order_1
         ∧ order_user r = Some "alice"%string
         ∧ order_game r = Some "COIN-100"%string
         ∧ order_amount r = Finite 50000
         ∧ order_created_at r = 100
         ∧ order_status r = "PAID"%string.
Proof.
  intros s s'.
  apply (created_order_listed (boot sample_boot) (sample_env order_1 100) alice_order
           "alice" "COIN-100" 50000
           [pay_order_1] (sample_env order_2 300) sample_session
           (select_recent_run (orders (db s')))).
  - reflexivity.
  - reflexivity.
  - by vm_compute.
  - by vm_compute.
  - reflexivity.
  - repeat constructor.
  - apply orders_listed; [done | reflexivity | apply select_recent_run_sound].
  - vm_compute. lia.
Defined.

(** On the freshly seeded server: a missing password, a wrong password, an
    unknown user, and the default credentials. *)
Lemma login_spec_witness :
  let s := boot sample_boot in
  let e := sample_env order_1 100 in
  handle {| ev_env := e; ev_route := POST_api_admin_login;
            ev_req := login_request (JStr "admin") JUndefined |} s
    = ({| status := 400; payload := JsonError "Missing" |}, s)
  ∧ handle {| ev_env := e; ev_route := POST_api_admin_login;
              ev_req := login_request (JStr "admin") (JStr "wrongpass") |} s
    = ({| status := 401; payload := JsonError "Unauthorized" |}, s)
  ∧ handle {| ev_env := e; ev_route := POST_api_admin_login;
              ev_req := login_request (JStr "root") (JStr "changeit") |} s
    = ({| status := 401; payload := JsonError "Unauthorized" |}, s)
  ∧ handle {| ev_env := e; ev_route := POST_api_admin_login;
              ev_req := login_request (JStr "admin") (JStr "changeit") |} s
    = ({| status := 200; payload := JsonOk |},
       {| db := db s; sessions := <["s1"%string := sample_session]> ∅ |})
  ∧ req_session
      (handle {| ev_env := e; ev_route := POST_api_admin_login;
                 ev_req := login_request (JStr "admin") (JStr "changeit") |} s).2
      (sample_request [] (Some "s1"%string))
    = Some sample_session.
Proof.
  intros s e. split; [|split; [|split]].
  4: {
    destruct (proj2 (proj2 (login_spec s e
                              (login_request (JStr "admin") (JStr "changeit"))))
                {| admin_id := 1; admin_username := Some "admin"%string;
                   admin_password_hash := Some "s4lt$changeit"%string |})
      as (_ & _ & Hrun & Hnext);
      [reflexivity | reflexivity | reflexivity | reflexivity | reflexivity |].
    split; [exact Hrun | exact (Hnext (sample_request [] (Some "s1"%string)) eq_refl)]. }
  - apply (proj1 (login_spec s e (login_request (JStr "admin") JUndefined))).
    by right.
  - apply (proj1 (proj2 (login_spec s e
                           (login_request (JStr "admin") (JStr "wrongpass")))));
      [reflexivity | reflexivity | reflexivity |].
    right. eexists. split; reflexivity.
  - apply (proj1 (proj2 (login_spec s e
                           (login_request (JStr "root") (JStr "changeit")))));
      [reflexivity | reflexivity | reflexivity |].
    left. intros a ->%list_elem_of_singleton. discriminate.
Defined.

(** The first start creates the admin; the next start creates nothing. *)
Lemma seed_admin_spec_witness :
  admins (seed_admin sample_boot empty_db) =
    [{| admin_id := 1; admin_username := Some "admin"%string;
        admin_password_hash := Some "s4lt$changeit"%string |}]
  ∧ seed_admin sample_boot (seed_admin sample_boot empty_db)
    = seed_admin sample_boot empty_db.
Proof.
  split.
  - exact (proj1 (seed_admin_spec sample_boot empty_db eq_refl eq_refl eq_refl)
             eq_refl).
  - apply (proj1 (proj2 (seed_admin_spec sample_boot (seed_admin sample_boot empty_db)
                           eq_refl eq_refl eq_refl))).
    discriminate.
Defined.

(** C8 as stated fails: the order CreateOrder inserted has status PENDING;
    after MarkPaid of its id, with one order in the table, the authenticated
    listing holds that order with status PAID and not the row as inserted. *)
Lemma created_order_listed_paid :
  let e := sample_env order_1 100 in
  let created := post_api_topup e alice_order [] in
  let paid := post_api_webhook_mock_pay (sample_env order_2 200)
                (sample_request [("orderId", JStr order_1)]%string None) created.2 in
  created = ({| status := 200;
                payload := JsonOrder order_1 (success_url alice_order order_1) |},
             [sample_row order_1 100])
  ∧ (at_least_as_recent (sample_row order_1 100) paid.2 ≤ 200)%nat
  ∧ ∀ res,
      get_api_admin_orders (sample_env order_2 300) (Some sample_session) paid.2 res →
      res = {| status := 200;
               payload := JsonOrders [set_status "PAID" (sample_row order_1 100)] |}
      ∧ sample_row order_1 100 ∉ [set_status "PAID" (sample_row order_1 100)].
Proof.
  intros e created paid. split; [by vm_compute|]. split; [vm_compute; lia|].
  intros res Hres.
  assert (paid.2 = [set_status "PAID" (sample_row order_1 100)]) as Hpaid
      by (by vm_compute).
  rewrite Hpaid in Hres. split.
  - apply orders_authenticated_inv in Hres as (rows & -> & sorted & Hperm & _ & ->);
      [|reflexivity].
    apply Permutation_singleton_r in Hperm as ->. reflexivity.
  - intros [=]%list_elem_of_singleton.
Qed.

(** ** The further properties on concrete runs *)

Lemma orders_primary_key_witness :
  let s := run [topup_alice; pay_order_1] (boot sample_boot) in
  NoDup (order_ids (orders (db s)))
  ∧ ∀ i j r1 r2,
      orders (db s) !! i = Some r1 → orders (db s) !! j = Some r2 →
      order_id r1 = order_id r2 → i = j ∧ r1 = r2.
Proof.
  intros s. apply orders_primary_key. apply run_reachable, reachable_boot.
Defined.

(** [uuidv4()] returning the id of an order that is already there. *)
Lemma create_order_insert_fails_witness :
  post_api_topup (sample_env order_1 200) alice_order [sample_row order_1 100]
  = ({| status := 500; payload := JsonError "DB error" |}, [sample_row order_1 100]).
Proof.
  apply (create_order_insert_fails (sample_env order_1 200) alice_order
           [sample_row order_1 100] 50000).
  - reflexivity.
  - reflexivity.
  - by vm_compute.
  - lia.
  - right. by apply list_elem_of_singleton.
Defined.

Lemma stored_orders_validated_witness :
  text_present (order_user (sample_row order_1 100))
  ∧ text_present (order_game (sample_row order_1 100))
  ∧ amount_positive (order_amount (sample_row order_1 100)).
Proof.
  apply (stored_orders_validated (run [topup_alice] (boot sample_boot))).
  - apply run_reachable, reachable_boot.
  - assert (orders (db (run [topup_alice] (boot sample_boot)))
            = [sample_row order_1 100]) as -> by (by vm_compute).
    by apply list_elem_of_singleton.
Defined.

Lemma create_order_integer_amount_witness :
  parseInt (field alice_order "amount") = Finite 50000
  ∧ ∃ row,
      (post_api_topup (sample_env order_1 100) alice_order []).1.(status) = 200
      ∧ (post_api_topup (sample_env order_1 100) alice_order []).2 = [] ++ [row]
      ∧ order_amount row = Finite 50000.
Proof.
  apply (create_order_integer_amount (sample_env order_1 100) alice_order [] 50000).
  - reflexivity.
  - reflexivity.
  - reflexivity.
  - lia.
  - by vm_compute.
  - reflexivity.
  - apply not_elem_of_nil.
Defined.

Lemma orders_never_deleted_witness :
  let s := run [topup_alice] (boot sample_boot) in
  ∃ kept added,
    orders (db (handle pay_order_1 s).2) = kept ++ added
    ∧ Forall2 kept_as (orders (db s)) kept
    ∧ (length added ≤ 1)%nat
    ∧ order_ids kept = order_ids (orders (db s)).
Proof.
  intros s.
  apply (orders_never_deleted s pay_order_1 (handle pay_order_1 s).1).
  apply handle_step.
Defined.

Lemma list_orders_small_table_witness :
  let tbl := [sample_row order_1 10; sample_row order_2 30; sample_row "o3" 20] in
  ∃ rows,
    get_api_admin_orders_run (sample_env order_1 40) (Some sample_session) tbl
      = {| status := 200; payload := JsonOrders rows |}
    ∧ rows ≡ₚ tbl.
Proof.
  intros tbl.
  apply (list_orders_small_table (sample_env order_1 40) sample_session tbl).
  - simpl. lia.
  - reflexivity.
  - apply get_api_admin_orders_run_sound.
Defined.

Lemma admins_only_default_witness :
  let s := boot sample_boot in
  (admins (db s) = [] ∨ ∃ salt, admins (db s) = [default_admin salt])
  ∧ ∀ ev res s', step s ev res s' → admins (db s') = admins (db s).
Proof. intros s. apply admins_only_default, reachable_boot. Defined.

Lemma sessions_of_admins_witness :
  let s := boot sample_boot in
  let login := {| ev_env := sample_env order_1 100; ev_route := POST_api_admin_login;
                  ev_req := login_request (JStr "admin") (JStr "changeit") |} in
  let s1 := (handle login s).2 in
  sessions s !! "s1"%string = None
  ∧ sessions s1 !! "s1"%string = Some sample_session
  ∧ (sessions s !! "s1"%string = Some sample_session
     ∨ (ev_route login = POST_api_admin_login
        ∧ (handle login s).1 = {| status := 200; payload := JsonOk |}
        ∧ ∃ row, row ∈ admins (db s)
                 ∧ admin_username row = sql_text (field (ev_req login) "username")
                 ∧ bcrypt_compare (field (ev_req login) "password")
                     (admin_password_hash row) = true
                 ∧ session_admin_id sample_session = admin_id row
                 ∧ session_username sample_session = admin_username row)).
Proof.
  intros s login s1.
  assert (sessions s1 !! "s1"%string = Some sample_session) as Hlook by (by vm_compute).
  split; [reflexivity|]. split; [exact Hlook|].
  apply (proj2 (sessions_of_admins s (reachable_boot sample_boot))
           login (handle login s).1 s1 "s1"%string sample_session
           (handle_step login s) Hlook).
Defined.

(** An order that would be accepted, with the INSERT failing. *)
Lemma storage_error_changes_nothing_witness :
  let ev := {| ev_env := {| uuidv4 := order_1; CURRENT_TIMESTAMP := 100;
                            db_err := true; new_sid := "s1" |};
               ev_route := POST_api_topup; ev_req := alice_order |} in
  let s := boot sample_boot in
  (handle ev s).2 = s
  ∧ (status (handle ev s).1 = 400 ∨ status (handle ev s).1 = 401
     ∨ status (handle ev s).1 = 500)
  ∧ ∃ reason, payload (handle ev s).1 = JsonError reason.
Proof.
  intros ev s. apply (storage_error_changes_nothing s ev).
  - reflexivity.
  - discriminate.
  - apply handle_step.
Defined.

(** bcrypt.hash failing at the first start, then a login as admin. *)
Lemma failed_seed_locks_out_witness :
  let b := {| boot_count_err := false; boot_salt := "s4lt"; boot_hash_err := true;
              boot_insert_err := false |} in
  let login := {| ev_env := sample_env order_1 100; ev_route := POST_api_admin_login;
                  ev_req := login_request (JStr "admin") (JStr "changeit") |} in
  let s := run [login] (boot b) in
  admins (db s) = [] ∧ sessions s = ∅
  ∧ (∀ e req res s',
       step s {| ev_env := e; ev_route := POST_api_admin_login; ev_req := req |} res s' →
       status res ≠ 200 ∧ s' = s)
  ∧ (∀ e req res s',
       step s {| ev_env := e; ev_route := GET_api_admin_orders; ev_req := req |} res s' →
       res = {| status := 401; payload := JsonError "unauth" |}).
Proof.
  intros b login s. apply (failed_seed_locks_out b [login]).
  right. reflexivity.
Defined.

(** The default credentials after an order and a payment. *)
Lemma default_credentials_log_in_witness :
  let s := run [topup_alice; pay_order_1] (boot sample_boot) in
  let e := sample_env order_1 300 in
  let req := login_request (JStr "admin") (JStr "changeit") in
  handle {| ev_env := e; ev_route := POST_api_admin_login; ev_req := req |} s =
  ({| status := 200; payload := JsonOk |},
   {| db := db s;
      sessions := <[session_key e req s :=
                      {| session_admin_id := 1; session_username := Some "admin"%string |}]>
                    (sessions s) |}).
Proof.
  intros s e req. apply (default_credentials_log_in s e req).
  - apply run_reachable, reachable_boot.
  - assert (admins (db s) = [default_admin "s4lt"]) as -> by (by vm_compute).
    discriminate.
  - assert (admins (db s) = [default_admin "s4lt"]) as -> by (by vm_compute).
    intros salt Hin%list_elem_of_singleton.
    injection Hin as Hhash. cbn in Hhash |- *. by rewrite Hhash.
  - reflexivity.
  - reflexivity.
  - reflexivity.
Defined.

(** The amounts " -12px" and " +12px". *)
Lemma create_order_signed_amount_witness :
  let e := sample_env order_1 100 in
  let order amount := sample_request [("user", JStr "alice"); ("game", JStr "COIN-100");
                                      ("amount", JStr amount)]%string None in
  post_api_topup e (order " -12px"%string) [] =
    ({| status := 400; payload := JsonError "Invalid amount" |}, [])
  ∧ post_api_topup e (order " +12px"%string) [] =
      ({| status := 200;
          payload := JsonOrder order_1 (success_url (order " +12px"%string) order_1) |},
       [] ++ [new_order e (order " +12px"%string)])
  ∧ order_amount (new_order e (order " +12px"%string)) = Finite 12.
Proof.
  intros e order. split.
  - apply (proj1 (create_order_signed_amount e (order " -12px"%string) []
                    " " "12" "px" eq_refl eq_refl eq_refl eq_refl
                    ltac:(discriminate) eq_refl)).
    reflexivity.
  - apply (proj2 (create_order_signed_amount e (order " +12px"%string) []
                    " " "12" "px" eq_refl eq_refl eq_refl eq_refl
                    ltac:(discriminate) eq_refl));
      [by right | reflexivity | reflexivity | apply not_elem_of_nil].
Defined.

(** Login as admin / changeit, then the listing with the session of that
    login. *)
Lemma login_then_list_orders_witness :
  let s := boot sample_boot in
  let e := sample_env order_1 100 in
  let req := login_request (JStr "admin") (JStr "changeit") in
  let s1 := (handle {| ev_env := e; ev_route := POST_api_admin_login; ev_req := req |} s).2 in
  let list := {| ev_env := e; ev_route := GET_api_admin_orders;
                 ev_req := sample_request [] (Some "s1"%string) |} in
  status (handle list s1).1 = 200 ∧ (handle list s1).2 = s1.
Proof.
  intros s e req s1 list.
  eapply (login_then_list_orders s e e req (sample_request [] (Some "s1"%string))
            {| admin_id := 1; admin_username := Some "admin"%string;
               admin_password_hash := Some "s4lt$changeit"%string |});
    [reflexivity | reflexivity | reflexivity | reflexivity | reflexivity
    | reflexivity | reflexivity |].
  apply (handle_step list s1).
Defined.
